(** * The secure user-account service (app_secure.py)

    A shallow embedding of the validation, hashing, persistence and request
    handling code of [app_secure.py], and the properties its specification
    states about them.

    Conventions of the embedding.
    - A Python [str] is the list of its Unicode code points ([char := N]);
      [len] is [length].  [bytes] is a list of [Byte.byte].
    - A Python exception is a value of [exn]; code that can raise returns a
      [result].  [try]/[except] is a [match] on the result.
    - The Unicode character database ([str.isupper], [str.strip], ...) and
      the bcrypt library are interfaces (type classes): the program is
      verified against any implementation, and run on small reference
      instances in the examples.
    - The SQLite file is a value of type [database]; a handler takes the
      state before the request and returns the response with the state
      after it.  Values read from the environment (the parsed JSON body,
      the clock, the random bytes of the salt) are arguments.
    - Logging and rate limiting do not influence a response or the store
      and are left out. *)

From Stdlib Require Import ZArith NArith Ascii String.
From Stdlib Require PrimFloat.
From stdpp Require Import gmap strings list fin_maps sorting.

Local Open Scope Z_scope.

(** ** Python values *)

Module Py.

Definition char := N.
Definition str := list N.
Definition bytes := list Byte.byte.

(** A string literal of the source (ASCII only). *)
Definition lit (s : string) : str :=
  (λ a, Ascii.N_of_ascii a) <$> String.list_ascii_of_string s.

(** The exceptions the program can see. *)
Inductive exn :=
  | BadRequest (description : str)  (* werkzeug.exceptions.BadRequest *)
  | DatabaseError                   (* app_secure.DatabaseError *)
  | IntegrityError                  (* sqlite3.IntegrityError, a sqlite3.Error *)
  | TypeError
  | KeyError
  | ValueError
  | AttributeError
  | UnicodeEncodeError.

Inductive result (A : Type) :=
  | Ok (a : A)
  | Raise (e : exn).
Global Arguments Ok {A} a.
Global Arguments Raise {A} e.

Global Instance result_ret : MRet result := λ A a, Ok a.
Global Instance result_bind : MBind result := λ A B f r,
  match r with Ok a => f a | Raise e => Raise e end.

(** [s1 + s2] on strings, and [f"...{field}"]. *)
Definition fmt (prefix : string) (field : str) : str := lit prefix ++ field.

(** The part of the Unicode character database the program consults,
    through [str.isupper], [str.islower], [str.isdigit] (on one-character
    strings) and [str.strip] (which removes the characters for which
    [isspace] holds). *)
Class UnicodeData := {
  isupper : char → bool;
  islower : char → bool;
  isdigit : char → bool;
  isspace : char → bool
}.

Fixpoint dropwhile {A} (p : A → bool) (l : list A) : list A :=
  match l with
  | [] => []
  | x :: l' => if p x then dropwhile p l' else l
  end.

Section strings.
Context `{UnicodeData}.

Definition lstrip (s : str) : str := dropwhile isspace s.
Definition rstrip (s : str) : str := reverse (dropwhile isspace (reverse s)).
(** [s.strip()] *)
Definition strip (s : str) : str := rstrip (lstrip s).

(** [any(p(c) for c in s)] *)
Definition any (p : char → bool) (s : str) : bool := existsb p s.

End strings.

(** CPython's classification restricted to the Basic Latin block: it agrees
    with the interpreter on every code point below 128, and is used to run
    the program on ASCII inputs. *)
Definition between (lo hi c : N) : bool := ((lo <=? c) && (c <=? hi))%N.

Definition basic_latin : UnicodeData := {|
  isupper c := between 65 90 c;
  islower c := between 97 122 c;
  isdigit c := between 48 57 c;
  isspace c := between 9 13 c || between 28 32 c
|}.

(** [s.encode("utf-8")] with the default [strict] error handler: a
    surrogate code point cannot be encoded. *)
Definition byte_of (n : N) : Byte.byte :=
  default Byte.x00 (Byte.of_N n).

Definition is_surrogate (c : char) : bool := between 55296 57343 c.

Definition encode_char (c : char) : list Byte.byte :=
  (if c <? 128 then [byte_of c]
   else if c <? 2048 then
     [byte_of (192 + c / 64); byte_of (128 + c mod 64)]
   else if c <? 65536 then
     [byte_of (224 + c / 4096); byte_of (128 + (c / 64) mod 64);
      byte_of (128 + c mod 64)]
   else
     [byte_of (240 + c / 262144); byte_of (128 + (c / 4096) mod 64);
      byte_of (128 + (c / 64) mod 64); byte_of (128 + c mod 64)])%N.

Fixpoint encode_utf8 (s : str) : result bytes :=
  match s with
  | [] => Ok []
  | c :: s' =>
      if is_surrogate c then Raise UnicodeEncodeError
      else bs ← encode_utf8 s'; Ok (encode_char c ++ bs)
  end.

End Py.
Import Py.

(** ** Validator *)

Module Validator.

(** [allowed_chars] of [validate_username]: a Python [set] of characters. *)
Definition allowed_chars : gset char :=
  list_to_set
    (lit "abcdefghijklmnopqrstuvwxyzABCDEFGHIJKLMNOPQRSTUVWXYZ0123456789_-.").

Definition validate_username (username : str) : bool * str :=
  if bool_decide (length username < 3)%nat then
    (false, lit "Username must be at least 3 characters long")
  else if bool_decide (50 < length username)%nat then
    (false, lit "Username must be less than 50 characters")
  else if negb (bool_decide ((list_to_set username : gset char) ⊆ allowed_chars)) then
    (false, lit "Username contains invalid characters")
  else (true, lit "Valid username").

Section password.
Context `{UnicodeData}.

Definition validate_password (password : str) : bool * str :=
  if bool_decide (length password < 8)%nat then
    (false, lit "Password must be at least 8 characters long")
  else if bool_decide (128 < length password)%nat then
    (false, lit "Password too long")
  else
    let has_upper := any isupper password in
    let has_lower := any islower password in
    let has_digit := any isdigit password in
    if negb (has_upper && has_lower && has_digit) then
      (false,
       lit "Password must contain uppercase, lowercase, and numeric characters")
    else (true, lit "Valid password").

End password.

(** The character class [[A-Za-z0-9_\-.]] of the specification, by code
    point. *)
Definition in_username_charset (c : char) : bool :=
  between 65 90 c || between 97 122 c || between 48 57 c
  || (c =? 95)%N || (c =? 45)%N || (c =? 46)%N.

(** The set and the class agree on the code point [n]. *)
Definition charset_agrees (n : nat) : bool :=
  let c := N.of_nat n in
  Bool.eqb (bool_decide (c ∈ allowed_chars)) (in_username_charset c).

End Validator.

(** ** JSON values and the generic field validator *)

Module Json.

(** What [request.get_json()] returns, and what [jsonify] is given. *)
#[warnings="-register-all"]
Inductive json :=
  | JNull                         (* None *)
  | JBool (b : bool)
  | JInt (z : Z)
  | JFloat (f : PrimFloat.float)
  | JStr (s : str)
  | JArr (l : list json)
  | JObj (m : gmap str json).

(** [bool(v)] *)
Definition truthy (v : json) : bool :=
  match v with
  | JNull => false
  | JBool b => b
  | JInt z => negb (z =? 0)
  | JFloat f => negb (PrimFloat.eqb f PrimFloat.zero)
  | JStr s => negb (bool_decide (s = []))
  | JArr l => match l with [] => false | _ => true end
  | JObj m => negb (bool_decide (m = ∅))
  end.

Fixpoint starts_with (s sub : str) : bool :=
  match sub, s with
  | [], _ => true
  | c :: sub', d :: s' => (c =? d)%N && starts_with s' sub'
  | _ :: _, [] => false
  end.

(** [sub in s] on strings *)
Fixpoint substring_of (sub s : str) : bool :=
  starts_with s sub ||
  match s with
  | [] => false
  | _ :: s' => substring_of sub s'
  end.

Definition is_str (field : str) (v : json) : bool :=
  match v with JStr s => bool_decide (s = field) | _ => false end.

(** [field in data] *)
Definition contains (data : json) (field : str) : result bool :=
  match data with
  | JObj m => Ok (bool_decide (is_Some (m !! field)))
  | JArr l => Ok (existsb (is_str field) l)
  | JStr s => Ok (substring_of field s)
  | JNull | JBool _ | JInt _ | JFloat _ => Raise TypeError
  end.

(** [data[field]] with a string subscript *)
Definition getitem (data : json) (field : str) : result json :=
  match data with
  | JObj m => match m !! field with Some v => Ok v | None => Raise KeyError end
  | _ => Raise TypeError
  end.

Section validate_input.
Context `{UnicodeData}.

(** The body of the [for] loop of [validate_input]. *)
Definition check_field (data : json) (field : str) : result unit :=
  present ← contains data field;
  value ← (if present then getitem data field else Ok JNull);
  if negb present || negb (truthy value) then
    Raise (BadRequest (fmt "Missing required field: " field))
  else
    match value with
    | JStr s =>
        if bool_decide (length (strip s) = 0%nat) then
          Raise (BadRequest (fmt "Empty value for " field))
        else if bool_decide (255 < length s)%nat then
          Raise (BadRequest (fmt "Value too long for " field))
        else Ok ()
    | _ => Raise (BadRequest (fmt "Invalid data type for " field))
    end.

Fixpoint check_fields (data : json) (required_fields : list str) : result unit :=
  match required_fields with
  | [] => Ok ()
  | field :: rest => check_field data field ;; check_fields data rest
  end.

(** [{k: data[k].strip() for k in required_fields}] *)
Fixpoint stripped (data : json) (required_fields : list str)
    (acc : gmap str str) : result (gmap str str) :=
  match required_fields with
  | [] => Ok acc
  | k :: rest =>
      v ← getitem data k;
      match v with
      | JStr s => stripped data rest (<[k := strip s]> acc)
      | _ => Raise AttributeError
      end
  end.

Definition validate_input (data : json) (required_fields : list str)
    : result (gmap str str) :=
  if negb (truthy data) then Raise (BadRequest (lit "No data provided"))
  else check_fields data required_fields ;; stripped data required_fields ∅.

End validate_input.

(** [d[key]] on the dictionary [validate_input] returns *)
Definition lookup_field (d : gmap str str) (key : string) : result str :=
  match d !! lit key with Some v => Ok v | None => Raise KeyError end.

(** A dictionary display with literal keys, as passed to [jsonify]. *)
Definition dict (kvs : list (string * json)) : json :=
  JObj (list_to_map (prod_map lit id <$> kvs)).

(** The keys of a JSON object. *)
Definition keys (v : json) : gset str :=
  match v with JObj m => dom m | _ => ∅ end.

(** [v[key]] for a literal key, [None] when [v] has no such member. *)
Definition member (v : json) (key : string) : option json :=
  match v with JObj m => m !! lit key | _ => None end.

End Json.
Import Json.

(** ** Credential hasher *)

Module Hasher.

(** The three functions of the bcrypt library the program calls.  [gensalt]
    is given the 16 bytes it reads from the operating system's random
    source; [None] stands for the [ValueError] the library raises. *)
Class Bcrypt := {
  gensalt : bytes → bytes;
  hashpw : bytes → bytes → option bytes;
  checkpw : bytes → bytes → option bool
}.

(** What the program relies on: a hash made with a salt of [gensalt]
    verifies the password it was made from, and determines that salt. *)
Class BcryptLaws `{Bcrypt} : Prop := {
  checkpw_hashpw (password urandom hashed : bytes) :
    hashpw password (gensalt urandom) = Some hashed →
    checkpw password hashed = Some true;
  hashpw_salt (password urandom1 urandom2 hashed : bytes) :
    length urandom1 = 16%nat → length urandom2 = 16%nat →
    hashpw password (gensalt urandom1) = Some hashed →
    hashpw password (gensalt urandom2) = Some hashed →
    gensalt urandom1 = gensalt urandom2
}.

Definition value_or_raise {A} (o : option A) : result A :=
  match o with Some a => Ok a | None => Raise ValueError end.

Section hasher.
Context `{Bcrypt}.

Definition hash_password (urandom : bytes) (password : str) : result bytes :=
  let salt := gensalt urandom in
  encoded ← encode_utf8 password;
  value_or_raise (hashpw encoded salt).

Definition verify_password (password : str) (password_hash : bytes)
    : result bool :=
  encoded ← encode_utf8 password;
  value_or_raise (checkpw encoded password_hash).

End hasher.

End Hasher.
Import Hasher.

(** ** A reference implementation of the bcrypt interface

    It keeps the library's modular-crypt format, a hash being the 7 bytes
    [$2b$12$], 22 characters of salt and 31 characters of digest, the way
    [checkpw] is defined from [hashpw], and the [ValueError] raised for a salt
    or hash that does not parse.  The digest itself is a toy.  The programs
    above are run on it in the examples. *)

Module ModularCrypt.

Global Instance byte_eq_dec : EqDecision Byte.byte := Byte.byte_eq_dec.

Definition blit (s : string) : bytes := String.list_byte_of_string s.

Definition alphabet : bytes :=
  blit "./ABCDEFGHIJKLMNOPQRSTUVWXYZabcdefghijklmnopqrstuvwxyz0123456789".

Definition sym (i : N) : Byte.byte := nth (N.to_nat i) alphabet Byte.x00.

(** Base 64 digits of a byte string, most significant bits first. *)
Fixpoint digits64 (bs : list N) : list N :=
  (match bs with
   | a :: b :: c :: rest =>
       [a / 4; (a mod 4) * 16 + b / 16; (b mod 16) * 4 + c / 64; c mod 64]
       ++ digits64 rest
   | [a; b] => [a / 4; (a mod 4) * 16 + b / 16; (b mod 16) * 4]
   | [a] => [a / 4; (a mod 4) * 16]
   | [] => []
   end)%N.

Definition encode64 (bs : bytes) : bytes := sym <$> digits64 (Byte.to_N <$> bs).

Definition mix (acc : N) (b : Byte.byte) : N :=
  ((acc * 31 + Byte.to_N b + 7) mod 4294967296)%N.

Definition toy_digest (setting password : bytes) : bytes :=
  let seed := foldl mix 0%N (setting ++ take 72 password) in
  (λ i, sym ((seed / (1 + N.of_nat i) + 5 * N.of_nat i) mod 64)%N) <$> seq 0 31.

Definition is_digit (b : Byte.byte) : bool := between 48 57 (Byte.to_N b).

Definition in_alphabet (b : Byte.byte) : bool :=
  bool_decide (b ∈ alphabet).

(** The seven bytes [$2?$nn$] that open a salt or hash: a version among
    [2a], [2b], [2x], [2y] and a cost from 4 to 31. *)
Definition header_ok (d1 two v d2 c1 c2 d3 : Byte.byte) : bool :=
  let cost := ((Byte.to_N c1 - 48) * 10 + (Byte.to_N c2 - 48))%N in
  bool_decide (d1 = Byte.x24) && bool_decide (two = Byte.x32)
  && bool_decide (v ∈ blit "abxy")
  && bool_decide (d2 = Byte.x24) && is_digit c1 && is_digit c2
  && bool_decide (d3 = Byte.x24) && between 4 31 cost.

(** The setting of a salt or hash: its header and 22 characters of salt. *)
Definition parse (s : bytes) : option bytes :=
  match s with
  | d1 :: two :: v :: d2 :: c1 :: c2 :: d3 :: tail =>
      if header_ok d1 two v d2 c1 c2 d3
         && bool_decide (22 ≤ length tail)%nat
         && forallb in_alphabet (take 22 tail)
      then Some ([d1; two; v; d2; c1; c2; d3] ++ take 22 tail)
      else None
  | _ => None
  end.

Definition ref_gensalt (urandom : bytes) : bytes :=
  blit "$2b$12$" ++ encode64 urandom.

Definition ref_hashpw (password salt : bytes) : option bytes :=
  setting ← parse salt;
  Some (setting ++ toy_digest setting password).

Definition ref_checkpw (password hashed_password : bytes) : option bool :=
  computed ← ref_hashpw password hashed_password;
  Some (bool_decide (computed = hashed_password)).

Definition reference : Bcrypt := {|
  gensalt := ref_gensalt;
  hashpw := ref_hashpw;
  checkpw := ref_checkpw
|}.

End ModularCrypt.
Import ModularCrypt.

(** ** User store *)

Module Sqlite.

(** A row of the relation [users] created by [init_db].  The column
    [updated_at] is filled by its default and never read; it is left out. *)
Record user_row := {
  id : Z;                  (* INTEGER PRIMARY KEY AUTOINCREMENT *)
  username : str;          (* TEXT UNIQUE NOT NULL *)
  password_hash : bytes;   (* BLOB NOT NULL *)
  created_at : str         (* TEXT NOT NULL *)
}.

(** The database file: the rows of [users] in insertion order, and the
    largest row id handed out so far (the table's entry in
    [sqlite_sequence]). *)
Record database := {
  users : list user_row;
  sequence : Z
}.

(** The state [init_db] leaves on a new file. *)
Definition init_db : database := {| users := []; sequence := 0 |}.

(** [SELECT ... FROM users WHERE username = ?] followed by [fetchone()] *)
Definition select_by_username (conn : database) (name : str) : option user_row :=
  List.find (λ r, bool_decide (username r = name)) (users conn).

(** [conn.execute("SELECT ... WHERE username = ?", (username,)).fetchone()]:
    the parameter is handed to SQLite as UTF-8, so the statement raises
    [UnicodeEncodeError], which is not an error of [sqlite3], when the
    string holds a lone surrogate; otherwise it returns the row found. *)
Definition fetch_by_username (conn : database) (name : str)
    : result (option user_row) :=
  encode_utf8 name ;; Ok (select_by_username conn name).

Definition max_id (rows : list user_row) : Z :=
  foldr (λ r m, Z.max (id r) m) 0 rows.

(** The row an [INSERT] adds: [AUTOINCREMENT] gives it an id above every
    id the table has held. *)
Definition inserted_row (conn : database) (name : str) (hash : bytes)
    (created : str) : user_row :=
  {| id := Z.max (sequence conn) (max_id (users conn)) + 1; username := name;
     password_hash := hash; created_at := created |}.

(** The committed state after that [INSERT]. *)
Definition after_insert (conn : database) (name : str) (hash : bytes)
    (created : str) : database :=
  {| users := users conn ++ [inserted_row conn name hash created];
     sequence := id (inserted_row conn name hash created) |}.

(** [INSERT INTO users (username, password_hash, created_at) VALUES (?, ?, ?)]
    followed by [commit()]; the result carries [cursor.lastrowid].  The
    [UNIQUE] constraint on [username] rejects a second row with the same
    name. *)
Definition insert_user (conn : database) (name : str) (hash : bytes)
    (created : str) : result (Z * database) :=
  if bool_decide (name ∈ username <$> users conn) then Raise IntegrityError
  else Ok (id (inserted_row conn name hash created),
           after_insert conn name hash created).

(** Comparison of two [TEXT] values under the [BINARY] collation. *)
Fixpoint text_le (a b : str) : bool :=
  match a, b with
  | [], _ => true
  | _ :: _, [] => false
  | x :: a', y :: b' => (x <? y)%N || ((x =? y)%N && text_le a' b')
  end.

(** [r1] may come before [r2] under [ORDER BY created_at DESC]. *)
Definition created_at_desc (r1 r2 : user_row) : Prop :=
  text_le (created_at r2) (created_at r1).

Global Instance created_at_desc_dec r1 r2 : Decision (created_at_desc r1 r2).
Proof. unfold created_at_desc. apply _. Defined.

(** [SELECT id, username, created_at FROM users ORDER BY created_at DESC]
    followed by [fetchall()] *)
Definition select_all_newest_first (conn : database) : list user_row :=
  merge_sort created_at_desc (users conn).

(** [with get_db_connection() as conn: ...]: an error of [sqlite3] in the
    block is rolled back and raised again as [DatabaseError]; any other
    exception is rolled back and passed on. *)
Definition get_db_connection {A} (block : result A) : result A :=
  match block with
  | Raise IntegrityError => Raise DatabaseError
  | r => r
  end.

End Sqlite.
Import Sqlite.

(** ** Account service: the request handlers *)

Module App.

Record response := { body : json; status : Z }.

(** [str(e)] for a [BadRequest] *)
Definition str_of_bad_request (description : str) : str :=
  lit "400 Bad Request: " ++ description.

(** [jsonify({"error": message}), code] *)
Definition error_response (message : str) (code : Z) : response :=
  {| body := dict [("error", JStr message)]; status := code |}.

(** The three [except] clauses shared by [create_user] and [login];
    [db_message] is the text used for a [DatabaseError]. *)
Definition on_exception (db_message : string) (e : exn) : response :=
  match e with
  | BadRequest d => error_response (str_of_bad_request d) 400
  | DatabaseError => error_response (lit db_message) 500
  | _ => error_response (lit "Internal server error") 500
  end.

(** The response of a successful registration. *)
Definition user_created (user_id : Z) (username : str) : response :=
  {| body := dict [("message", JStr (lit "User created successfully"));
                   ("user_id", JInt user_id);
                   ("username", JStr username)];
     status := 201 |}.

(** The response of a successful login. *)
Definition login_successful (user : user_row) : response :=
  {| body := dict [("message", JStr (lit "Login successful"));
                   ("user_id", JInt (id user));
                   ("username", JStr (username user))];
     status := 200 |}.

Definition user_record (user : user_row) : json :=
  dict [("id", JInt (id user)); ("username", JStr (username user));
        ("created_at", JStr (created_at user))].

(** [GET /users] *)
Definition get_users (db : database) : response :=
  let users := select_all_newest_first db in
  let user_list := user_record <$> users in
  {| body := dict [("users", JArr user_list)]; status := 200 |}.

Section handlers.
Context `{UnicodeData} `{Bcrypt}.

Definition credentials : list str := [lit "username"; lit "password"].

(** The request passes the generic validation, which returns the trimmed
    credentials [u] and [p], and both pass their validator. *)
Definition valid_registration (request_json : json) (u p : str) : Prop :=
  ∃ data, validate_input request_json credentials = Ok data
    ∧ data !! lit "username" = Some u ∧ data !! lit "password" = Some p
    ∧ (Validator.validate_username u).1 = true
    ∧ (Validator.validate_password p).1 = true.

(** The first half of the [try] block of [create_user], up to the hashing
    of the password: an early response, or the trimmed username with the
    hash to store.  [urandom] stands for the random bytes read by
    [bcrypt.gensalt()]. *)
Definition create_user_prepare (urandom : bytes) (request_json : json)
    : result (response + str * bytes) :=
  data ← validate_input request_json credentials;
  username ← lookup_field data "username";
  password ← lookup_field data "password";
  let '(username_valid, username_msg) := Validator.validate_username username in
  if negb username_valid then
    Ok (inl (error_response username_msg 400))
  else
  let '(password_valid, password_msg) := Validator.validate_password password in
  if negb password_valid then
    Ok (inl (error_response password_msg 400))
  else
  password_hash ← hash_password urandom password;
  Ok (inr (username, password_hash)).

(** The existence check at the start of the [with] block: the response
    returned when the name is taken.  The name bound here has passed
    [validate_username], so it is ASCII and the statement cannot fail on
    it. *)
Definition create_user_check (db : database) (username : str) : option response :=
  let existing_user := select_by_username db username in
  match existing_user with
  | Some _ => Some (error_response (lit "Username already exists") 400)
  | None => None
  end.

(** The insertion that ends the [with] block, and the response that
    follows it.  [utcnow] is the text of [datetime.utcnow().isoformat()]. *)
Definition create_user_insert (db : database) (username : str)
    (password_hash : bytes) (utcnow : str) : result (response * database) :=
  '(user_id, db') ← insert_user db username password_hash utcnow;
  Ok (user_created user_id username, db').

(** The [try] block of [create_user] *)
Definition create_user_try (db : database) (urandom : bytes) (utcnow : str)
    (request_json : json) : result (response * database) :=
  prepared ← create_user_prepare urandom request_json;
  match prepared with
  | inl early => Ok (early, db)
  | inr (username, password_hash) =>
      get_db_connection (
        match create_user_check db username with
        | Some conflict => Ok (conflict, db)
        | None => create_user_insert db username password_hash utcnow
        end)
  end.

(** [POST /users] *)
Definition create_user (db : database) (urandom : bytes) (utcnow : str)
    (request_json : json) : response * database :=
  match create_user_try db urandom utcnow request_json with
  | Ok out => out
  | Raise e => (on_exception "User creation failed" e, db)
  end.

(** The [try] block of [login] *)
Definition login_try (db : database) (request_json : json) : result response :=
  data ← validate_input request_json credentials;
  username ← lookup_field data "username";
  password ← lookup_field data "password";
  user ← get_db_connection (fetch_by_username db username);
  authenticated ←
    match user with
    | Some row => verify_password password (password_hash row)
    | None => Ok false
    end;
  match user, authenticated with
  | Some row, true => Ok (login_successful row)
  | _, _ => Ok (error_response (lit "Invalid credentials") 401)
  end.

(** [POST /login] *)
Definition login (db : database) (request_json : json) : response :=
  match login_try db request_json with
  | Ok out => out
  | Raise e => on_exception "Authentication failed" e
  end.

End handlers.

End App.
Import App.

(** ** Registrations served at the same time

    Flask serves requests on several threads, each with a connection of its
    own to the one database file.  SQLite runs the statements of the
    connections one at a time, so an execution of several [create_user]
    calls is an interleaving of their database steps: the [SELECT] of the
    existence check, and the [INSERT] with its [commit]. *)

Module Concurrent.

Inductive task :=
  | AtSelect (username : str) (password_hash : bytes) (utcnow : str)
  | AtInsert (username : str) (password_hash : bytes) (utcnow : str)
  | Finished (r : response).

Section tasks.
Context `{UnicodeData} `{Bcrypt}.

(** A request on its way to the [with] block. *)
Definition start (urandom : bytes) (utcnow : str) (request_json : json) : task :=
  match create_user_prepare urandom request_json with
  | Ok (inl early) => Finished early
  | Ok (inr (username, password_hash)) => AtSelect username password_hash utcnow
  | Raise e => Finished (on_exception "User creation failed" e)
  end.

End tasks.

(** The next database step of one request. *)
Definition step (db : database) (t : task) : task * database :=
  match t with
  | AtSelect username password_hash utcnow =>
      match create_user_check db username with
      | Some conflict => (Finished conflict, db)
      | None => (AtInsert username password_hash utcnow, db)
      end
  | AtInsert username password_hash utcnow =>
      match get_db_connection
              (create_user_insert db username password_hash utcnow) with
      | Ok (created, db') => (Finished created, db')
      | Raise e => (Finished (on_exception "User creation failed" e), db)
      end
  | Finished _ => (t, db)
  end.

(** The scheduler lets request [i] take its next step. *)
Definition step_at (i : nat) (st : database * list task) : database * list task :=
  match st.2 !! i with
  | Some t => let '(t', db') := step st.1 t in (db', <[i := t']> st.2)
  | None => st
  end.

Definition run (schedule : list nat) (st : database * list task)
    : database * list task :=
  foldl (λ st i, step_at i st) st schedule.

Definition finished (t : task) : bool :=
  match t with Finished _ => true | _ => false end.

Definition succeeded (t : task) : bool :=
  match t with Finished r => (status r =? 201) | _ => false end.

Definition failed (t : task) : bool :=
  match t with
  | Finished r => (status r =? 400) || (status r =? 500)
  | _ => false
  end.

(** The number of database steps a request still has to take. *)
Definition steps_left (t : task) : nat :=
  match t with AtSelect _ _ _ => 2 | AtInsert _ _ _ => 1 | Finished _ => 0 end.

(** The schedule gives each of [n] requests the two turns it may need. *)
Definition fair (n : nat) (schedule : list nat) : Prop :=
  ∀ i, (i < n)%nat → (2 ≤ count_occ Nat.eq_dec schedule i)%nat.

(** The request is for [name] and has not been answered. *)
Definition pending (name : str) (t : task) : Prop :=
  match t with
  | AtSelect username _ _ | AtInsert username _ _ => username = name
  | Finished _ => False
  end.

(** The rows of the store that carry [name]. *)
Definition named (name : str) (db : database) : list user_row :=
  filter (λ r, username r = name) (users db).

(** What holds at every point of an execution of requests for one [name]
    that started on a store without it: the name is still free and every
    request pending, or one request has succeeded, its row is the only one
    with the name, and every other request is pending or has failed. *)
Definition invariant (name : str) (st : database * list task) : Prop :=
  (named name st.1 = [] ∧ Forall (pending name) st.2)
  ∨ (∃ i winner row,
       named name st.1 = [row] ∧ st.2 !! i = Some winner
       ∧ succeeded winner = true
       ∧ ∀ j t, j ≠ i → st.2 !! j = Some t → pending name t ∨ failed t = true).

End Concurrent.
Import Concurrent.

(** ** Sample inputs

    The requests of the test suite, run with the Basic Latin classification
    and the reference library. *)

Module Sample.

Definition urandom1 : bytes := blit "0123456789abcdef".
Definition urandom2 : bytes := blit "fedcba9876543210".
Definition utcnow1 : str := lit "2024-01-01T10:00:00.000001".
Definition utcnow2 : str := lit "2024-01-01T10:00:00.500000".

Definition credentials_of (username password : string) : gmap str json :=
  {[ lit "username" := JStr (lit username); lit "password" := JStr (lit password) ]}.

Definition testuser : json := JObj (credentials_of "testuser" "SecurePass123").
Definition wrong_password : json :=
  JObj (credentials_of "testuser" "WrongPassword123").
Definition nonexistent : json :=
  JObj (credentials_of "nonexistent" "SecurePass123").
(** A password that the validators accept and that ends in a lone
    surrogate, as the JSON text ["Abcdefg1\ud800"] is parsed. *)
Definition surrogate_password : json :=
  JObj {[ lit "username" := JStr (lit "testuser");
          lit "password" := JStr (lit "Abcdefg1" ++ [55296%N]) ]}.

Definition validated (username password : string) : gmap str str :=
  {[ lit "username" := lit username; lit "password" := lit password ]}.

(** The store after [testuser] has registered. *)
Definition one_user : database :=
  (@create_user basic_latin reference init_db urandom1 utcnow1 testuser).2.


(** Two registrations of [testuser] that have both reached the [with]
    block. *)
Definition two_tasks : list task :=
  [@start basic_latin reference urandom1 utcnow1 testuser;
   @start basic_latin reference urandom2 utcnow2 testuser].

End Sample.
Import Sample.

(** ** Invariants of the store and further sample inputs *)

Module Store.

(** The constraints of the schema of [init_db]: [username] is [UNIQUE],
    [id] is the primary key, and with [AUTOINCREMENT] no id lies above the
    recorded sequence. *)
Definition well_formed (db : database) : Prop :=
  NoDup (username <$> users db)
  ∧ NoDup (id <$> users db)
  ∧ Forall (λ r, 0 < id r ≤ sequence db) (users db).

(** Every stored name is one [validate_username] accepts. *)
Definition usernames_valid (db : database) : Prop :=
  Forall (λ r, (Validator.validate_username (username r)).1 = true) (users db).

(** A JSON value that is neither a string nor a container: [null], a
    boolean or a number. *)
Definition scalar (v : json) : bool :=
  match v with
  | JNull | JBool _ | JInt _ | JFloat _ => true
  | JStr _ | JArr _ | JObj _ => false
  end.

End Store.
Import Store.

Module MoreSamples.

(** The credentials of [testuser] with blanks around both fields. *)
Definition padded : json :=
  JObj (credentials_of "  testuser " " SecurePass123  ").

(** A username of 252 blanks around one letter: 256 characters, one of them
    after trimming. *)
Definition long_padded_name : str := replicate 128 32%N ++ [97%N] ++ replicate 127 32%N.
Definition long_padded : json :=
  JObj {[ lit "username" := JStr long_padded_name;
          lit "password" := JStr (lit "SecurePass123") ]}.

(** A login whose username is a lone surrogate, as the JSON text
    ["\ud800"] is parsed. *)
Definition surrogate_login : json :=
  JObj {[ lit "username" := JStr [55296%N]; lit "password" := JStr (lit "x") ]}.


(** A registration of another user. *)
Definition gooduser : json := JObj (credentials_of "gooduser" "SecurePass123").

(** A store whose user has a hash the library cannot parse. *)
Definition broken_user : user_row :=
  {| id := 1; username := lit "testuser"; password_hash := blit "not-a-hash";
     created_at := utcnow1 |}.
Definition broken_store : database := {| users := [broken_user]; sequence := 1 |}.

(** Three registrations, two of them of one name, on their way to the
    [with] block. *)
Definition three_tasks : list task :=
  [@start basic_latin reference urandom1 utcnow1 testuser;
   @start basic_latin reference urandom2 utcnow2 gooduser;
   @start basic_latin reference urandom2 utcnow2 testuser].

End MoreSamples.
Import MoreSamples.

(** * Properties *)

(** Reduce the binds of the [result] monad. *)
Ltac run_binds := repeat (unfold mbind, result_bind; cbn beta iota).

(** ** Validator *)

Section validator_facts.

Lemma allowed_chars_below_128 (c : char) :
  c ∈ Validator.allowed_chars → (c < 128)%N.
Proof.
  unfold Validator.allowed_chars. rewrite elem_of_list_to_set.
  revert c. apply Forall_forall. vm_compute.
  repeat (constructor; [reflexivity|]). constructor.
Qed.

Lemma charset_below_128 (c : char) :
  Validator.in_username_charset c = true → (c < 128)%N.
Proof.
  unfold Validator.in_username_charset, between. intros Hc.
  repeat (apply orb_prop in Hc; destruct Hc as [Hc|Hc]);
    try (apply andb_prop in Hc; destruct Hc as [_ Hc]; apply N.leb_le in Hc);
    try apply N.eqb_eq in Hc; lia.
Qed.

Lemma charset_agrees_all : forallb Validator.charset_agrees (seq 0 128) = true.
Proof. vm_compute. reflexivity. Qed.

(** The set literal of [validate_username] is the character class
    [[A-Za-z0-9_\-.]]. *)
Lemma allowed_chars_charset (c : char) :
  c ∈ Validator.allowed_chars ↔ Validator.in_username_charset c = true.
Proof.
  destruct (decide (c < 128)%N) as [Hlt|Hge].
  - pose proof charset_agrees_all as Hall.
    rewrite forallb_forall in Hall.
    specialize (Hall (N.to_nat c)).
    unfold Validator.charset_agrees in Hall. rewrite N2Nat.id in Hall.
    assert (Hin : In (N.to_nat c) (seq 0 128)) by (apply in_seq; lia).
    apply Hall in Hin. apply Bool.eqb_prop in Hin.
    rewrite <- Hin. rewrite bool_decide_eq_true. reflexivity.
  - split; intros Hc; exfalso; apply Hge.
    + by apply allowed_chars_below_128.
    + by apply charset_below_128.
Qed.

Lemma subset_allowed_chars (s : str) :
  bool_decide ((list_to_set s : gset char) ⊆ Validator.allowed_chars)
  = forallb Validator.in_username_charset s.
Proof.
  destruct (forallb Validator.in_username_charset s) eqn:Hall.
  - apply bool_decide_eq_true. rewrite forallb_forall in Hall.
    intros c Hc. apply allowed_chars_charset, Hall.
    apply list_elem_of_In. by apply elem_of_list_to_set in Hc.
  - apply bool_decide_eq_false. intros Hsub.
    apply not_true_iff_false in Hall. apply Hall.
    apply forallb_forall. intros c Hc. apply allowed_chars_charset, Hsub.
    apply elem_of_list_to_set, list_elem_of_In, Hc.
Qed.

Lemma negb_forallb {A} (p : A → bool) (l : list A) :
  negb (forallb p l) = existsb (λ x, negb (p x)) l.
Proof.
  induction l as [|x l IH]; simpl; [done|].
  rewrite negb_andb, IH. done.
Qed.

End validator_facts.

(** C6. [validate_username] applies three checks in this order: fewer than
    3 characters (the "too short" message), more than 50 characters (the
    "too long" message), some character outside [[A-Za-z0-9_\-.]] (the
    "invalid characters" message); a string that passes all three is
    valid. *)
Theorem validate_username_spec (s : str) :
  Validator.validate_username s =
    if (length s <? 3)%nat then
      (false, lit "Username must be at least 3 characters long")
    else if (50 <? length s)%nat then
      (false, lit "Username must be less than 50 characters")
    else if existsb (λ c, negb (Validator.in_username_charset c)) s then
      (false, lit "Username contains invalid characters")
    else (true, lit "Valid username").
Proof.
  unfold Validator.validate_username.
  rewrite subset_allowed_chars, negb_forallb.
  repeat case_bool_decide;
    repeat match goal with
      | |- context [(?a <? ?b)%nat] => destruct (Nat.ltb_spec a b)
      end; try lia; reflexivity.
Qed.

(** C7. [validate_password] checks the length first, fewer than 8
    characters (the "too short" message) and then more than 128 (the "too
    long" message); a password of an accepted length is valid exactly when
    it has an uppercase letter, a lowercase letter and a digit, and is
    otherwise refused with the one combined message. *)
Theorem validate_password_spec `{UnicodeData} (s : str) :
  Validator.validate_password s =
    if (length s <? 8)%nat then
      (false, lit "Password must be at least 8 characters long")
    else if (128 <? length s)%nat then
      (false, lit "Password too long")
    else if negb (existsb isupper s) || negb (existsb islower s)
            || negb (existsb isdigit s) then
      (false,
       lit "Password must contain uppercase, lowercase, and numeric characters")
    else (true, lit "Valid password").
Proof.
  unfold Validator.validate_password, any.
  rewrite !negb_andb.
  repeat case_bool_decide;
    repeat match goal with
      | |- context [(?a <? ?b)%nat] => destruct (Nat.ltb_spec a b)
      end; try lia; reflexivity.
Qed.

(** ** Generic field validation *)

Section validate_input_facts.
Context `{UnicodeData}.

Lemma strip_nil : strip [] = [].
Proof. reflexivity. Qed.

Lemma check_field_ok (m : gmap str json) (field s : str) :
  m !! field = Some (JStr s) → strip s ≠ [] → (length s ≤ 255)%nat →
  check_field (JObj m) field = Ok ().
Proof.
  intros Hm Hs Hlen. unfold check_field, contains, getitem.
  rewrite Hm. run_binds.
  rewrite bool_decide_eq_true_2 by eauto. run_binds. cbn [negb orb truthy].
  assert (s ≠ []) by (intros ->; by apply Hs).
  rewrite (bool_decide_eq_false_2 (s = [])) by done. cbn [negb].
  rewrite bool_decide_eq_false_2 by (by destruct (strip s)).
  rewrite bool_decide_eq_false_2 by lia. done.
Qed.

(** A request object whose two credentials are strings that are not blank
    and of at most 255 characters passes [validate_input], which returns
    them trimmed. *)
Lemma validate_input_ok (m : gmap str json) (u p : str) :
  m !! lit "username" = Some (JStr u) → m !! lit "password" = Some (JStr p) →
  strip u ≠ [] → strip p ≠ [] →
  (length u ≤ 255)%nat → (length p ≤ 255)%nat →
  validate_input (JObj m) credentials
  = Ok (<[lit "password" := strip p]> (<[lit "username" := strip u]> ∅)).
Proof.
  intros Hu Hp Hsu Hsp Hlu Hlp. unfold validate_input, credentials.
  assert (m ≠ ∅) by (intros ->; by rewrite lookup_empty in Hu).
  cbn [truthy]. rewrite bool_decide_eq_false_2 by done. cbn [negb].
  cbn [check_fields].
  rewrite (check_field_ok m (lit "username") u) by done. run_binds.
  rewrite (check_field_ok m (lit "password") p) by done.
  run_binds. cbn [stripped getitem]. rewrite Hu. run_binds.
  cbn [stripped getitem]. rewrite Hp. run_binds. done.
Qed.

Lemma validated_username (u p : str) :
  lookup_field (<[lit "password" := p]> (<[lit "username" := u]> ∅)) "username"
  = Ok u.
Proof.
  unfold lookup_field. rewrite lookup_insert_ne by done.
  by rewrite lookup_insert_eq.
Qed.

Lemma validated_password (u p : str) :
  lookup_field (<[lit "password" := p]> (<[lit "username" := u]> ∅)) "password"
  = Ok p.
Proof. unfold lookup_field. by rewrite lookup_insert_eq. Qed.

End validate_input_facts.

(** ** Credential hasher *)

Section hasher_facts.
Context `{Bcrypt}.

(** [encode] fails exactly on the strings with a surrogate code point, and
    otherwise returns the UTF-8 bytes of the characters in order. *)
Lemma encode_utf8_spec (s : str) :
  encode_utf8 s =
    if existsb is_surrogate s then Raise UnicodeEncodeError
    else Ok (s ≫= encode_char).
Proof.
  induction s as [|c s IH]; [done|].
  cbn [encode_utf8 existsb]. destruct (is_surrogate c); [done|].
  rewrite IH. cbn [orb]. by destruct (existsb is_surrogate s).
Qed.

Lemma verify_password_exceptions (password : str) (hash : bytes) (e : exn) :
  verify_password password hash = Raise e →
  e = UnicodeEncodeError ∨ e = ValueError.
Proof.
  unfold verify_password. rewrite encode_utf8_spec.
  destruct (existsb is_surrogate password); run_binds.
  - intros [= <-]. by left.
  - destruct (checkpw _ _); cbn [value_or_raise]; [done|].
    intros [= <-]. by right.
Qed.

End hasher_facts.

(** C1 (as amended). [verify_password] has no handler of its own: it
    returns the boolean of the library's check when the password can be
    encoded and the library accepts the hash, raises [UnicodeEncodeError]
    for a password with a surrogate code point, and passes on the
    [ValueError] the library raises for a hash it cannot parse. *)
Theorem verify_password_outcome `{Bcrypt} (password : str) (hash : bytes) :
  verify_password password hash =
    if existsb is_surrogate password then Raise UnicodeEncodeError
    else match checkpw (password ≫= encode_char) hash with
         | Some matches => Ok matches
         | None => Raise ValueError
         end.
Proof.
  unfold verify_password. rewrite encode_utf8_spec.
  destruct (existsb is_surrogate password); run_binds; [done|].
  by destruct (checkpw _ _).
Qed.

(** C1 (as stated) fails: whatever the library, a password with a lone
    surrogate makes [verify_password] raise; and with the reference
    library, so does a hash that is not in the modular-crypt format. *)
Lemma verify_password_raises :
  (∀ (B : Bcrypt) (hash : bytes),
     @verify_password B [55296%N] hash = Raise UnicodeEncodeError)
  ∧ @verify_password reference (lit "SecurePass123") (blit "not-a-hash")
    = Raise ValueError.
Proof. split; [intros B hash|]; reflexivity. Qed.

(** ** User store *)

Section store_facts.

Lemma select_by_username_None (db : database) (name : str) :
  select_by_username db name = None ↔ name ∉ username <$> users db.
Proof.
  unfold select_by_username. split.
  - intros Hnone Hin. apply list_elem_of_fmap in Hin as (r & -> & Hr).
    apply list_elem_of_In in Hr.
    eapply find_none in Hr; [|exact Hnone].
    by apply bool_decide_eq_false in Hr.
  - intros Hnot. destruct (find _ _) as [r|] eqn:Hfind; [|done].
    apply find_some in Hfind as [Hr Hname].
    apply bool_decide_eq_true in Hname. exfalso. apply Hnot.
    apply list_elem_of_fmap. exists r. split; [done|].
    by apply list_elem_of_In.
Qed.

Lemma select_by_username_Some (db : database) (name : str) (row : user_row) :
  select_by_username db name = Some row →
  row ∈ users db ∧ username row = name.
Proof.
  unfold select_by_username. intros Hfind.
  apply find_some in Hfind as [Hr Hname].
  apply bool_decide_eq_true in Hname. split; [|done].
  by apply list_elem_of_In.
Qed.

Lemma insert_user_new (db : database) (name : str) (hash : bytes) (created : str) :
  select_by_username db name = None →
  insert_user db name hash created
  = Ok (id (inserted_row db name hash created), after_insert db name hash created).
Proof.
  intros Hnone%select_by_username_None. unfold insert_user.
  by rewrite bool_decide_eq_false_2.
Qed.

Lemma insert_user_taken (db : database) (name : str) (hash : bytes)
    (created : str) (row : user_row) :
  select_by_username db name = Some row →
  insert_user db name hash created = Raise IntegrityError.
Proof.
  intros [Hrow Hname]%select_by_username_Some. unfold insert_user.
  rewrite bool_decide_eq_true_2; [done|].
  apply list_elem_of_fmap. by exists row.
Qed.

Lemma select_after_insert (db : database) (name : str) (hash : bytes)
    (created : str) :
  select_by_username db name = None →
  select_by_username (after_insert db name hash created) name
  = Some (inserted_row db name hash created).
Proof.
  unfold select_by_username, after_insert. cbn [users]. intros Hnone.
  induction (users db) as [|r rows IH] in Hnone |- *; cbn [find app] in *.
  - by rewrite bool_decide_eq_true_2.
  - destruct (bool_decide (username r = name)); [done|]. by apply IH.
Qed.

Lemma max_id_bound (rows : list user_row) (r : user_row) :
  r ∈ rows → id r ≤ max_id rows.
Proof.
  induction 1 as [r rows|r r' rows _ IH]; cbn [max_id foldr]; fold (max_id rows); lia.
Qed.

End store_facts.

(** ** Login *)

Section login_facts.
Context `{UnicodeData} `{Bcrypt}.

(** The lookup raises exactly for a name with a surrogate code point. *)
Lemma fetch_by_username_spec (db : database) (name : str) :
  fetch_by_username db name =
    if existsb is_surrogate name then Raise UnicodeEncodeError
    else Ok (select_by_username db name).
Proof.
  unfold fetch_by_username. rewrite encode_utf8_spec.
  by destruct (existsb is_surrogate name).
Qed.

(** A name [validate_username] accepts is ASCII, and can be bound. *)
Lemma valid_username_binds (db : database) (name : str) :
  (Validator.validate_username name).1 = true →
  fetch_by_username db name = Ok (select_by_username db name).
Proof.
  intros Hvalid. rewrite fetch_by_username_spec.
  assert (existsb is_surrogate name = false) as ->; [|done].
  revert Hvalid. unfold Validator.validate_username.
  rewrite subset_allowed_chars.
  do 2 (case_bool_decide; [done|]).
  destruct (forallb Validator.in_username_charset name) eqn:Hall; [|done].
  intros _. apply not_true_iff_false. intros Hsur.
  apply existsb_exists in Hsur as (c & Hc & Hsur).
  rewrite forallb_forall in Hall. apply Hall, charset_below_128 in Hc.
  unfold is_surrogate, between in Hsur.
  apply andb_prop in Hsur as [Hlo%N.leb_le _]. lia.
Qed.

(** What [login] answers once the generic validation has returned the
    trimmed credentials. *)
Lemma login_validated (db : database) (request_json : json)
    (data : gmap str str) (u p : str) :
  validate_input request_json credentials = Ok data →
  data !! lit "username" = Some u → data !! lit "password" = Some p →
  login db request_json =
    match fetch_by_username db u with
    | Raise _ => error_response (lit "Internal server error") 500
    | Ok None => error_response (lit "Invalid credentials") 401
    | Ok (Some row) =>
        match verify_password p (password_hash row) with
        | Ok true => login_successful row
        | Ok false => error_response (lit "Invalid credentials") 401
        | Raise _ => error_response (lit "Internal server error") 500
        end
    end.
Proof.
  intros Hdata Hu Hp. unfold login, login_try, lookup_field.
  rewrite Hdata. run_binds. rewrite Hu, Hp. run_binds.
  rewrite fetch_by_username_spec.
  destruct (existsb is_surrogate u); cbn [get_db_connection]; [done|].
  destruct (select_by_username db u) as [row|]; [|done].
  destruct (verify_password p (password_hash row)) as [[]|e] eqn:Hv; try done.
  by destruct (verify_password_exceptions _ _ _ Hv) as [-> | ->].
Qed.

End login_facts.

(** C3 (as amended). A login request that passes the generic validation and
    whose username can be encoded as UTF-8 gets one and the same response,
    [{"error": "Invalid credentials"}] with status 401, when no user has the
    name and when a user has it but the password does not verify against
    the stored hash. *)
Theorem login_failures_indistinguishable `{UnicodeData} `{Bcrypt}
    (db : database) (request_json : json) (data : gmap str str) (u p : str) :
  validate_input request_json credentials = Ok data →
  data !! lit "username" = Some u → data !! lit "password" = Some p →
  existsb is_surrogate u = false →
  (select_by_username db u = None
   ∨ ∃ row, select_by_username db u = Some row
            ∧ verify_password p (password_hash row) = Ok false) →
  login db request_json = error_response (lit "Invalid credentials") 401.
Proof.
  intros Hdata Hu Hp Hencodable Hcause.
  rewrite (login_validated db request_json data u p) by done.
  rewrite fetch_by_username_spec, Hencodable.
  destruct Hcause as [-> | (row & -> & ->)]; done.
Qed.

(** C3 (as stated) fails: a login under a name that is a lone surrogate
    passes the generic validation, no user of the store has that name, and
    the answer is status 500 with "Internal server error", not the 401 of
    invalid credentials. *)
Lemma login_surrogate_username_not_401 :
  @validate_input basic_latin surrogate_login credentials
  = Ok {[ lit "username" := [55296%N]; lit "password" := lit "x" ]}
  ∧ select_by_username one_user [55296%N] = None
  ∧ @login basic_latin reference one_user surrogate_login
    = error_response (lit "Internal server error") 500
  ∧ error_response (lit "Internal server error") 500
    ≠ error_response (lit "Invalid credentials") 401.
Proof.
  split_and!; [vm_compute; reflexivity..|].
  intros Heq. apply (f_equal status) in Heq. discriminate Heq.
Qed.


(** ** Registration *)

Section registration_facts.
Context `{UnicodeData} `{Bcrypt}.

Lemma create_user_prepare_valid (urandom : bytes) (request_json : json)
    (u p : str) (h : bytes) :
  valid_registration request_json u p → hash_password urandom p = Ok h →
  create_user_prepare urandom request_json = Ok (inr (u, h)).
Proof.
  intros (data & Hdata & Hu & Hp & Hvu & Hvp) Hh.
  unfold create_user_prepare, lookup_field.
  rewrite Hdata. run_binds. rewrite Hu, Hp. run_binds.
  destruct (Validator.validate_username u) as [? ?]; cbn [fst] in Hvu; subst.
  destruct (Validator.validate_password p) as [? ?]; cbn [fst] in Hvp; subst.
  cbn [negb]. rewrite Hh. done.
Qed.

Lemma create_user_new (db : database) (urandom : bytes) (utcnow : str)
    (request_json : json) (u p : str) (h : bytes) :
  valid_registration request_json u p → hash_password urandom p = Ok h →
  select_by_username db u = None →
  create_user db urandom utcnow request_json
  = (user_created (id (inserted_row db u h utcnow)) u, after_insert db u h utcnow).
Proof.
  intros Hvalid Hh Hnone. unfold create_user, create_user_try.
  rewrite (create_user_prepare_valid _ _ u p h) by done. run_binds.
  unfold create_user_check, create_user_insert. rewrite Hnone.
  rewrite insert_user_new by done. done.
Qed.

Lemma create_user_taken (db : database) (urandom : bytes) (utcnow : str)
    (request_json : json) (u p : str) (h : bytes) (row : user_row) :
  valid_registration request_json u p → hash_password urandom p = Ok h →
  select_by_username db u = Some row →
  create_user db urandom utcnow request_json
  = (error_response (lit "Username already exists") 400, db).
Proof.
  intros Hvalid Hh Hsome. unfold create_user, create_user_try.
  rewrite (create_user_prepare_valid _ _ u p h) by done. run_binds.
  unfold create_user_check. rewrite Hsome. done.
Qed.

End registration_facts.

(** C4 (as amended). A registration request that passes all validation,
    whose password the hasher hashes and whose username is not stored yet,
    is answered with status 201 and an object of exactly three members: the
    message, the id of the new row as [user_id] (larger than every id in
    the store) and the username.  The object has no [created_at] and no
    password hash; both are in the row that is added to the store. *)
Theorem create_user_success `{UnicodeData} `{Bcrypt}
    (db : database) (urandom : bytes) (utcnow : str) (request_json : json)
    (u p : str) (h : bytes) :
  valid_registration request_json u p → hash_password urandom p = Ok h →
  select_by_username db u = None →
  ∃ user_id : Z,
    let out := create_user db urandom utcnow request_json in
    status out.1 = 201
    ∧ keys (body out.1) = {[ lit "message"; lit "user_id"; lit "username" ]}
    ∧ member (body out.1) "message" = Some (JStr (lit "User created successfully"))
    ∧ member (body out.1) "user_id" = Some (JInt user_id)
    ∧ member (body out.1) "username" = Some (JStr u)
    ∧ (∀ r, r ∈ users db → id r < user_id)
    ∧ users out.2 = users db ++
        [{| id := user_id; username := u; password_hash := h;
            created_at := utcnow |}].
Proof.
  intros Hvalid Hh Hnone.
  exists (id (inserted_row db u h utcnow)). cbn zeta.
  rewrite (create_user_new db urandom utcnow request_json u p h) by done.
  cbn [fst snd]. repeat split; try reflexivity.
  intros r Hr%max_id_bound. cbn [inserted_row id]. lia.
Qed.

(** C5 (as amended). When a valid registration, whose password the hasher
    hashes, is sent twice in sequence for a name that is not stored, the
    first attempt succeeds with status 201, the second is refused with
    [{"error": "Username already exists"}] and status 400, and the refused
    attempt leaves the store as the first left it. *)
Theorem register_twice_conflict `{UnicodeData} `{Bcrypt}
    (db : database) (urandom1 urandom2 : bytes) (utcnow1 utcnow2 : str)
    (request_json : json) (u p : str) (h1 h2 : bytes) :
  valid_registration request_json u p →
  hash_password urandom1 p = Ok h1 → hash_password urandom2 p = Ok h2 →
  select_by_username db u = None →
  let first := create_user db urandom1 utcnow1 request_json in
  let second := create_user first.2 urandom2 utcnow2 request_json in
  status first.1 = 201
  ∧ second.1 = error_response (lit "Username already exists") 400
  ∧ second.2 = first.2.
Proof.
  intros Hvalid Hh1 Hh2 Hnone. cbn zeta.
  rewrite (create_user_new db urandom1 utcnow1 request_json u p h1) by done.
  cbn [fst snd].
  rewrite (create_user_taken _ urandom2 utcnow2 request_json u p h2
             (inserted_row db u h1 utcnow1)); [done..|].
  by apply select_after_insert.
Qed.

(** ** Listing *)

Section listing_facts.

Lemma text_le_total (a b : str) : text_le a b = true ∨ text_le b a = true.
Proof.
  revert b. induction a as [|x a IH]; intros [|y b]; cbn [text_le]; auto.
  destruct (N.lt_trichotomy x y) as [Hlt|[->|Hgt]].
  - left. apply orb_true_iff. left. by apply N.ltb_lt.
  - rewrite N.eqb_refl, N.ltb_irrefl. cbn [orb andb]. apply IH.
  - right. apply orb_true_iff. left. by apply N.ltb_lt.
Qed.

Lemma text_le_trans (a b c : str) :
  text_le a b = true → text_le b c = true → text_le a c = true.
Proof.
  revert b c. induction a as [|x a IH]; intros [|y b] [|z c];
    cbn [text_le]; try done.
  rewrite !orb_true_iff, !andb_true_iff, !N.ltb_lt, !N.eqb_eq.
  intros [Hxy|[-> Hab]] [Hyz|[-> Hbc]]; try (left; lia); try (left; done).
  right. split; [done|]. by eapply IH.
Qed.

Global Instance created_at_desc_total : Total created_at_desc.
Proof.
  intros r1 r2. unfold created_at_desc.
  destruct (text_le_total (created_at r2) (created_at r1)) as [-> | ->];
    [left|right]; done.
Qed.

Global Instance created_at_desc_trans : Transitive created_at_desc.
Proof.
  intros r1 r2 r3. unfold created_at_desc.
  intros H12%Is_true_true H23%Is_true_true. apply Is_true_true.
  by eapply text_le_trans.
Qed.

Lemma user_record_keys (row : user_row) :
  keys (user_record row) = {[ lit "id"; lit "username"; lit "created_at" ]}.
Proof. reflexivity. Qed.

End listing_facts.

(** C9. Whatever the store holds, [get_users] answers with status 200 and
    the list of all its rows, each exactly once, in descending order of
    [created_at] (so the empty list for the empty store); a record of the
    list has the members [id], [username] and [created_at] of its row and
    no other, so no [password_hash]. *)
Theorem get_users_newest_first (db : database) :
  ∃ rows : list user_row,
    get_users db
    = {| body := dict [("users", JArr (user_record <$> rows))]; status := 200 |}
    ∧ rows ≡ₚ users db
    ∧ StronglySorted created_at_desc rows
    ∧ (users db = [] → rows = [])
    ∧ ∀ row, row ∈ rows →
        keys (user_record row) = {[ lit "id"; lit "username"; lit "created_at" ]}
        ∧ member (user_record row) "id" = Some (JInt (id row))
        ∧ member (user_record row) "username" = Some (JStr (username row))
        ∧ member (user_record row) "created_at" = Some (JStr (created_at row))
        ∧ member (user_record row) "password_hash" = None.
Proof.
  exists (select_all_newest_first db). unfold select_all_newest_first.
  repeat split; try reflexivity.
  - apply merge_sort_Permutation.
  - apply (StronglySorted_merge_sort _).
  - intros Hnil. apply Permutation_nil_r. rewrite <- Hnil.
    apply merge_sort_Permutation.
Qed.

(** ** The reference library keeps the laws *)

Section reference_facts.

Lemma parse_setting (s setting digest : bytes) :
  parse s = Some setting → parse (setting ++ digest) = Some setting.
Proof.
  destruct s as [|d1 [|two [|v [|d2 [|c1 [|c2 [|d3 tail]]]]]]]; try done.
  cbn [parse].
  destruct (header_ok d1 two v d2 c1 c2 d3) eqn:Hheader; [|done].
  destruct (bool_decide (22 ≤ length tail)%nat) eqn:Hlen; [|done].
  destruct (forallb in_alphabet (take 22 tail)) eqn:Halpha; [|done].
  cbn [andb]. intros [= <-]. cbn [app parse]. rewrite Hheader.
  apply bool_decide_eq_true in Hlen.
  assert (Htake : take 22 (take 22 tail ++ digest) = take 22 tail).
  { rewrite take_app_le by (rewrite length_take; lia).
    by rewrite take_take. }
  rewrite Htake, Halpha.
  rewrite bool_decide_eq_true_2; [done|].
  rewrite length_app, length_take. lia.
Qed.

Lemma ref_hashpw_fixpoint (password salt hashed : bytes) :
  ref_hashpw password salt = Some hashed →
  ref_hashpw password hashed = Some hashed.
Proof.
  unfold ref_hashpw. destruct (parse salt) as [setting|] eqn:Hparse; [|done].
  cbn. intros [= <-]. by rewrite (parse_setting salt).
Qed.

Lemma digits64_length_16 (l : list N) :
  length l = 16%nat → length (digits64 l) = 22%nat.
Proof.
  intros Hl. do 17 (destruct l as [|? l]; try done).
Qed.

Lemma ref_gensalt_length (urandom : bytes) :
  length urandom = 16%nat → length (ref_gensalt urandom) = 29%nat.
Proof.
  intros Hl. unfold ref_gensalt, encode64.
  rewrite length_app, length_fmap, digits64_length_16; [done|].
  by rewrite length_fmap.
Qed.

Lemma ref_hashpw_salt_prefix (password urandom hashed : bytes) :
  length urandom = 16%nat →
  ref_hashpw password (ref_gensalt urandom) = Some hashed →
  take 29 hashed = ref_gensalt urandom.
Proof.
  intros Hl. pose proof (ref_gensalt_length urandom Hl) as Hlen.
  unfold ref_hashpw.
  destruct (parse (ref_gensalt urandom)) as [setting|] eqn:Hparse; [|done].
  cbn. intros [= <-].
  assert (setting = ref_gensalt urandom) as ->.
  { unfold ref_gensalt in *.
    change (blit "$2b$12$") with
      [Byte.x24; Byte.x32; Byte.x62; Byte.x24; Byte.x31; Byte.x32; Byte.x24]
      in *.
    cbn [app parse] in Hparse.
    destruct (_ && _) in Hparse; [|done].
    injection Hparse as <-. cbn [app]. do 7 f_equal.
    apply take_ge. cbn [app length] in Hlen. lia. }
  rewrite take_app_le by lia. apply take_ge.
  change (length (ref_gensalt urandom) ≤ 29)%nat. lia.
Qed.

Global Instance reference_laws : @BcryptLaws reference.
Proof.
  split; cbn [gensalt hashpw checkpw reference].
  - intros password urandom hashed Hhash. unfold ref_checkpw.
    rewrite (ref_hashpw_fixpoint _ _ _ Hhash). cbn.
    by rewrite bool_decide_eq_true_2.
  - intros password r1 r2 hashed Hl1 Hl2 Hh1 Hh2.
    rewrite <- (ref_hashpw_salt_prefix _ _ _ Hl1 Hh1).
    by rewrite <- (ref_hashpw_salt_prefix _ _ _ Hl2 Hh2).
Qed.

End reference_facts.


(** ** Registrations served at the same time *)

Section concurrent_facts.

Lemma named_nil (name : str) (db : database) :
  named name db = [] ↔ select_by_username db name = None.
Proof.
  rewrite select_by_username_None. unfold named. split.
  - intros Hnil Hin. apply list_elem_of_fmap in Hin as (r & -> & Hr).
    assert (r ∈ filter (λ r', username r' = username r) (users db)) as Hf
      by (by apply list_elem_of_filter).
    rewrite Hnil in Hf. by apply not_elem_of_nil in Hf.
  - induction (users db) as [|r rows IH]; [done|].
    rewrite fmap_cons, not_elem_of_cons. intros [Hne Hnot].
    rewrite filter_cons_False by done. by apply IH.
Qed.

Lemma named_cons (name : str) (db : database) (row : user_row) (rows : list user_row) :
  named name db = row :: rows → select_by_username db name ≠ None.
Proof. intros Hnamed Hnone%named_nil. by rewrite Hnone in Hnamed. Qed.

Lemma named_after_insert (name : str) (db : database) (hash : bytes) (created : str) :
  named name db = [] →
  named name (after_insert db name hash created)
  = [inserted_row db name hash created].
Proof.
  unfold named, after_insert. cbn [users]. intros Hnil.
  rewrite filter_app, Hnil. cbn [app]. rewrite filter_cons_True by done.
  by rewrite filter_nil.
Qed.

(** One step of a pending request on a store where the name is free. *)
Lemma step_free (name : str) (db : database) (t : task) :
  named name db = [] → pending name t →
  (pending name (step db t).1 ∧ (step db t).2 = db)
  ∨ (succeeded (step db t).1 = true ∧ ∃ row, named name (step db t).2 = [row]).
Proof.
  intros Hnil Ht. pose proof (proj1 (named_nil _ _) Hnil) as Hnone.
  destruct t as [u h now|u h now|r]; cbn [pending] in Ht; [subst u..|done].
  - left. cbn [step]. unfold create_user_check. rewrite Hnone. done.
  - right. cbn [step]. unfold create_user_insert.
    rewrite insert_user_new by done. run_binds. cbn [get_db_connection fst snd].
    split; [done|]. eexists. by apply named_after_insert.
Qed.

(** One step of a request on a store where the name is taken. *)
Lemma step_taken (name : str) (db : database) (row : user_row) (t : task) :
  named name db = [row] → pending name t ∨ failed t = true →
  failed (step db t).1 = true ∧ (step db t).2 = db.
Proof.
  intros Hrow Ht.
  destruct (select_by_username db name) as [found|] eqn:Hsel;
    [|by apply named_cons in Hrow].
  destruct t as [u h now|u h now|r]; cbn [step].
  - destruct Ht as [->|Ht]; [|done].
    unfold create_user_check. rewrite Hsel. done.
  - destruct Ht as [->|Ht]; [|done].
    unfold create_user_insert. rewrite (insert_user_taken _ _ _ _ found) by done.
    done.
  - destruct Ht as [[]|Ht]. done.
Qed.

Lemma step_finished (db : database) (t : task) :
  finished t = true → step db t = (t, db).
Proof. by destruct t. Qed.

Lemma succeeded_finished (t : task) : succeeded t = true → finished t = true.
Proof. by destruct t. Qed.

Lemma step_at_invariant (name : str) (i : nat) (st : database * list task) :
  invariant name st → invariant name (step_at i st).
Proof.
  destruct st as [db ts]. unfold step_at. cbn [fst snd].
  destruct (ts !! i) as [t|] eqn:Hi; [|done].
  destruct (step db t) as [t' db'] eqn:Hstep.
  intros [[Hnil Hall]|(w & winner & row & Hrow & Hw & Hwon & Hrest)];
    cbn [fst snd] in *.
  - assert (Ht : pending name t) by (eapply Forall_lookup_1; eauto).
    destruct (step_free name db t Hnil Ht) as [[Hp Hdb]|[Hs [row Hrow]]];
      rewrite Hstep in *; cbn [fst snd] in *.
    + left. subst db'. split; [done|]. cbn [fst snd].
      apply Forall_insert; done.
    + right. exists i, t', row. cbn [fst snd].
      split_and!; [done| |done|].
      * apply list_lookup_insert_eq. by eapply lookup_lt_Some.
      * intros j tj Hne Hj. rewrite list_lookup_insert_ne in Hj by done.
        left. eapply Forall_lookup_1; eauto.
  - right. destruct (decide (i = w)) as [->|Hne].
    + assert (t = winner) as -> by congruence.
      rewrite step_finished in Hstep by (by apply succeeded_finished).
      injection Hstep as <- <-. exists w, winner, row. cbn [fst snd].
      rewrite list_insert_id by done. done.
    + destruct (step_taken name db row t Hrow (Hrest i t Hne Hi)) as [Hf Hdb].
      rewrite Hstep in *. cbn [fst snd] in *. subst db'.
      exists w, winner, row. cbn [fst snd]. split_and!; [done| |done|].
      * by rewrite list_lookup_insert_ne.
      * intros j tj Hj Hlook. destruct (decide (j = i)) as [->|Hji].
        -- rewrite list_lookup_insert_eq in Hlook
             by (by eapply lookup_lt_Some).
           injection Hlook as <-. by right.
        -- rewrite list_lookup_insert_ne in Hlook by done. eauto.
Qed.

Lemma run_invariant (name : str) (schedule : list nat) (st : database * list task) :
  invariant name st → invariant name (run schedule st).
Proof.
  unfold run. revert st.
  induction schedule as [|i schedule IH]; intros st Hinv; [done|].
  cbn [foldl]. by apply IH, step_at_invariant.
Qed.

Lemma pending_not_finished (name : str) (t : task) :
  pending name t → finished t = true → False.
Proof. by destruct t. Qed.

End concurrent_facts.

(** A request served with no other in between takes the two steps in a
    row: the interleaving model agrees with [create_user]. *)
Lemma create_user_as_steps `{UnicodeData} `{Bcrypt}
    (db : database) (urandom : bytes) (utcnow : str) (request_json : json) :
  let s1 := step db (start urandom utcnow request_json) in
  let s2 := step s1.2 s1.1 in
  s2 = (Finished (create_user db urandom utcnow request_json).1,
        (create_user db urandom utcnow request_json).2).
Proof.
  cbn zeta. unfold start, create_user, create_user_try.
  destruct (create_user_prepare urandom request_json) as [[early|[u h]]|e];
    run_binds; cbn [step fst snd]; [done| |done].
  destruct (create_user_check db u) as [conflict|]; cbn [step fst snd]; [done|].
  destruct (create_user_insert db u h utcnow) as [[created db']|e];
    cbn [get_db_connection].
  - done.
  - by destruct e.
Qed.

Lemma start_valid `{UnicodeData} `{Bcrypt} (urandom : bytes) (utcnow : str)
    (request_json : json) (u p : str) (h : bytes) :
  valid_registration request_json u p → hash_password urandom p = Ok h →
  start urandom utcnow request_json = AtSelect u h utcnow.
Proof.
  intros Hvalid Hh. unfold start.
  by rewrite (create_user_prepare_valid _ _ u p h).
Qed.

Lemma run_length (schedule : list nat) (st : database * list task) :
  length (run schedule st).2 = length st.2.
Proof.
  unfold run. revert st.
  induction schedule as [|i schedule IH]; intros st; [done|].
  cbn [foldl]. rewrite IH. unfold step_at.
  destruct (st.2 !! i); [|done]. destruct (step st.1 t).
  cbn [snd]. apply length_insert.
Qed.

Lemma step_progress (db : database) (t : task) :
  (steps_left (step db t).1 ≤ steps_left t - 1)%nat.
Proof.
  destruct t as [u h now|u h now|r]; cbn [step].
  - destruct (create_user_check db u); cbn; lia.
  - destruct (get_db_connection _) as [[created db']|e]; cbn; lia.
  - cbn. lia.
Qed.

(** Every turn given to a request brings it a step nearer to its answer. *)
Lemma run_progress (schedule : list nat) (st : database * list task)
    (i : nat) (t : task) :
  st.2 !! i = Some t →
  ∃ t', (run schedule st).2 !! i = Some t'
    ∧ (steps_left t' ≤ steps_left t - count_occ Nat.eq_dec schedule i)%nat.
Proof.
  unfold run. revert st t.
  induction schedule as [|j schedule IH]; intros st t Hi.
  - exists t. split; [done|]. cbn. lia.
  - cbn [foldl count_occ]. destruct (Nat.eq_dec j i) as [->|Hne].
    + assert (Hstep : (step_at i st).2 !! i = Some (step st.1 t).1).
      { unfold step_at. rewrite Hi. destruct (step st.1 t) as [t1 db1].
        cbn [fst snd]. apply list_lookup_insert_eq. by eapply lookup_lt_Some. }
      destruct (IH _ _ Hstep) as (t' & Ht' & Hle). exists t'. split; [done|].
      pose proof (step_progress st.1 t). lia.
    + assert (Hstep : (step_at j st).2 !! i = Some t).
      { unfold step_at. destruct (st.2 !! j) as [tj|]; [|done].
        destruct (step st.1 tj) as [t1 db1]. cbn [fst snd].
        by rewrite list_lookup_insert_ne. }
      apply (IH _ _ Hstep).
Qed.

Lemma run_fair_finished (schedule : list nat) (st : database * list task) :
  fair (length st.2) schedule →
  Forall (λ t, finished t = true) (run schedule st).2.
Proof.
  intros Hfair. apply Forall_lookup_2. intros i t' Hi.
  assert (Hlt : (i < length st.2)%nat).
  { rewrite <- (run_length schedule st). by eapply lookup_lt_Some. }
  destruct (lookup_lt_is_Some_2 _ _ Hlt) as [t Ht].
  destruct (run_progress schedule st i t Ht) as (t'' & Ht'' & Hle).
  assert (t'' = t') as -> by congruence.
  specialize (Hfair i Hlt).
  destruct t' as [u h now|u h now|r]; cbn [steps_left] in Hle;
    destruct t; cbn [steps_left] in Hle; solve [done | lia].
Qed.

(** C2 (as amended). [create_user] looks for the name with a [SELECT] and
    inserts in a later statement, and the [UNIQUE] constraint of the store
    rejects a duplicate at the [INSERT]: when any number of registrations of
    one name, free at the start, are served in any interleaving that lets
    each take its steps, exactly one of them succeeds, every other one is
    answered with a failure, and the store holds one row with the name. *)
Theorem concurrent_registrations_one_success (name : str) (db : database)
    (tasks : list task) (schedule : list nat) :
  select_by_username db name = None →
  tasks ≠ [] →
  Forall (λ t, ∃ h now, t = AtSelect name h now) tasks →
  fair (length tasks) schedule →
  ∃ i winner row,
    (run schedule (db, tasks)).2 !! i = Some winner
    ∧ succeeded winner = true
    ∧ (∀ j, j ≠ i → (j < length tasks)%nat →
         ∃ t, (run schedule (db, tasks)).2 !! j = Some t ∧ failed t = true)
    ∧ named name (run schedule (db, tasks)).1 = [row].
Proof.
  intros Hfree Hne Hstart Hfair.
  assert (Hinv : invariant name (db, tasks)).
  { left. split; [by apply named_nil|]. cbn [snd].
    eapply Forall_impl; [exact Hstart|]. by intros t (h & now & ->). }
  apply (run_invariant name schedule) in Hinv.
  pose proof (run_length schedule (db, tasks)) as Hlen.
  pose proof (run_fair_finished schedule (db, tasks) Hfair) as Hdone.
  destruct (run schedule (db, tasks)) as [db' tasks'].
  cbn [fst snd] in *.
  destruct Hinv as [[_ Hall]|(i & winner & row & Hrow & Hi & Hwon & Hrest)];
    cbn [fst snd] in *.
  - destruct tasks' as [|t tasks'];
      [destruct tasks; [by destruct Hne|discriminate Hlen]|].
    exfalso. apply (pending_not_finished name t).
    + exact (Forall_inv Hall).
    + exact (Forall_inv Hdone).
  - exists i, winner, row. split_and!; [done..| |done].
    intros j Hj Hlt. rewrite <- Hlen in Hlt.
    destruct (lookup_lt_is_Some_2 _ _ Hlt) as [t Ht]. exists t. split; [done|].
    destruct (Hrest j t Hj Ht) as [Hp|Hf]; [|done].
    exfalso. apply (pending_not_finished name t Hp).
    exact (Forall_lookup_1 _ _ _ _ Hdone Ht).
Qed.

(** C2 (as stated) fails: when the two existence checks run before the two
    insertions, the second registration is not refused as a conflict but
    with the generic status 500 of a database error. *)
Lemma concurrent_duplicate_not_conflict :
  (run [0; 1; 0; 1]%nat (init_db, two_tasks)).2
  = [Finished (user_created 1 (lit "testuser"));
     Finished (error_response (lit "User creation failed") 500)]
  ∧ error_response (lit "User creation failed") 500
    ≠ error_response (lit "Username already exists") 400.
Proof.
  split; [vm_compute; reflexivity|].
  intros Heq. apply (f_equal status) in Heq. discriminate Heq.
Qed.

(** ** The requests of the test suite *)

Section examples.
Let validate_password := @Validator.validate_password basic_latin.
Let create_user := @create_user basic_latin reference.
Let login := @login basic_latin reference.

Example validate_username_examples :
  Validator.validate_username (lit "ab")
  = (false, lit "Username must be at least 3 characters long")
  ∧ Validator.validate_username (replicate 51 97%N)
    = (false, lit "Username must be less than 50 characters")
  ∧ Validator.validate_username (replicate 50 97%N) = (true, lit "Valid username")
  ∧ Validator.validate_username (lit "test@user!")
    = (false, lit "Username contains invalid characters")
  ∧ Validator.validate_username (lit "a@")
    = (false, lit "Username must be at least 3 characters long")
  ∧ Validator.validate_username (lit "user.name") = (true, lit "Valid username").
Proof. repeat split; vm_compute; reflexivity. Qed.

Example validate_password_examples :
  (validate_password (lit "weak")).1 = false
  ∧ (validate_password (lit "lowercase")).1 = false
  ∧ (validate_password (lit "UPPERCASE123")).1 = false
  ∧ (validate_password (lit "NoNumbers")).1 = false
  ∧ (validate_password (replicate 129 97%N)).2 = lit "Password too long"
  ∧ validate_password (lit "SecurePass123") = (true, lit "Valid password").
Proof. repeat split; vm_compute; reflexivity. Qed.

Example test_create_and_login :
  (create_user init_db urandom1 utcnow1 testuser).1
  = user_created 1 (lit "testuser")
  ∧ (create_user one_user urandom2 utcnow2 testuser).1
    = error_response (lit "Username already exists") 400
  ∧ login one_user testuser
    = login_successful
        {| id := 1; username := lit "testuser";
           password_hash := blit "$2b$12$KBCwKxOzLha2MUDgW0PjXe6hGcq2tolXGkSn2s6yNT9SmIUH/ZqIm";
           created_at := utcnow1 |}
  ∧ get_users init_db = {| body := dict [("users", JArr [])]; status := 200 |}.
Proof. repeat split; vm_compute; reflexivity. Qed.

Example test_missing_required_fields :
  create_user init_db urandom1 utcnow1 (JObj ∅)
  = (error_response (lit "400 Bad Request: No data provided") 400, init_db)
  ∧ create_user init_db urandom1 utcnow1
      (JObj {[ lit "username" := JStr (lit "testuser") ]})
    = (error_response (lit "400 Bad Request: Missing required field: password") 400,
       init_db)
  ∧ create_user init_db urandom1 utcnow1 (JInt 7)
    = (error_response (lit "Internal server error") 500, init_db).
Proof. repeat split; vm_compute; reflexivity. Qed.

Example test_get_users_two :
  let db := (create_user one_user urandom2 utcnow2
               (JObj (credentials_of "gooduser" "SecurePass123"))).2 in
  get_users db
  = {| body := dict [("users", JArr [
         dict [("id", JInt 2); ("username", JStr (lit "gooduser"));
               ("created_at", JStr utcnow2)];
         dict [("id", JInt 1); ("username", JStr (lit "testuser"));
               ("created_at", JStr utcnow1)]])];
       status := 200 |}.
Proof. vm_compute. reflexivity. Qed.

(** A password that both validators accept and that cannot be encoded is
    answered with status 500: the theorems on registration ask that the
    hasher returns a hash. *)
Example create_user_unhashable_password :
  valid_registration (H:=basic_latin) surrogate_password
    (lit "testuser") (lit "Abcdefg1" ++ [55296%N])
  ∧ create_user init_db urandom1 utcnow1 surrogate_password
    = (error_response (lit "Internal server error") 500, init_db).
Proof.
  split; [|vm_compute; reflexivity].
  exists {[ lit "username" := lit "testuser";
            lit "password" := lit "Abcdefg1" ++ [55296%N] ]}.
  repeat split; vm_compute; reflexivity.
Qed.

End examples.

(** ** The theorems at the sample inputs *)

Lemma testuser_valid :
  valid_registration (H:=basic_latin) testuser (lit "testuser") (lit "SecurePass123").
Proof.
  exists (validated "testuser" "SecurePass123").
  repeat split; vm_compute; reflexivity.
Defined.

(** C4 (as stated) fails: the registration of [testuser] succeeds and its
    result has no [created_at]. *)
Lemma create_user_result_without_created_at :
  valid_registration (H:=basic_latin) testuser (lit "testuser") (lit "SecurePass123")
  ∧ select_by_username init_db (lit "testuser") = None
  ∧ status (@create_user basic_latin reference init_db urandom1 utcnow1 testuser).1
    = 201
  ∧ member (body (@create_user basic_latin reference init_db urandom1 utcnow1
                    testuser).1) "created_at" = None.
Proof.
  split; [exact testuser_valid|]. repeat split; vm_compute; reflexivity.
Qed.

(** C5 (as stated) fails: a username and a password that both validators
    accept, the password ending in a lone surrogate, are answered with
    status 500 on the first attempt and on the second; and a valid pair
    whose name is stored already is refused on its first attempt. *)
Lemma register_twice_not_success_then_conflict :
  (valid_registration (H:=basic_latin) surrogate_password
     (lit "testuser") (lit "Abcdefg1" ++ [55296%N])
   ∧ select_by_username init_db (lit "testuser") = None
   ∧ let first := @create_user basic_latin reference init_db urandom1 utcnow1
                    surrogate_password in
     let second := @create_user basic_latin reference first.2 urandom2 utcnow2
                     surrogate_password in
     status first.1 = 500 ∧ status second.1 = 500)
  ∧ status (@create_user basic_latin reference one_user urandom2 utcnow2
              testuser).1 = 400.
Proof.
  split; [|vm_compute; reflexivity]. split.
  - exists {[ lit "username" := lit "testuser";
              lit "password" := lit "Abcdefg1" ++ [55296%N] ]}.
    repeat split; vm_compute; reflexivity.
  - repeat split; vm_compute; reflexivity.
Qed.


Lemma create_user_success_witness :
  ∃ user_id : Z,
    let out := @create_user basic_latin reference init_db urandom1 utcnow1 testuser in
    status out.1 = 201
    ∧ keys (body out.1) = {[ lit "message"; lit "user_id"; lit "username" ]}
    ∧ member (body out.1) "message" = Some (JStr (lit "User created successfully"))
    ∧ member (body out.1) "user_id" = Some (JInt user_id)
    ∧ member (body out.1) "username" = Some (JStr (lit "testuser"))
    ∧ (∀ r, r ∈ users init_db → id r < user_id)
    ∧ users out.2 = users init_db ++
        [{| id := user_id; username := lit "testuser";
            password_hash :=
              blit "$2b$12$KBCwKxOzLha2MUDgW0PjXe6hGcq2tolXGkSn2s6yNT9SmIUH/ZqIm";
            created_at := utcnow1 |}].
Proof.
  apply (@create_user_success basic_latin reference init_db urandom1 utcnow1
           testuser (lit "testuser") (lit "SecurePass123")).
  - exact testuser_valid.
  - vm_compute. reflexivity.
  - vm_compute. reflexivity.
Defined.

Lemma register_twice_conflict_witness :
  let first := @create_user basic_latin reference init_db urandom1 utcnow1 testuser in
  let second := @create_user basic_latin reference first.2 urandom2 utcnow2 testuser in
  status first.1 = 201
  ∧ second.1 = error_response (lit "Username already exists") 400
  ∧ second.2 = first.2.
Proof.
  eapply (@register_twice_conflict basic_latin reference init_db urandom1 urandom2
            utcnow1 utcnow2 testuser (lit "testuser") (lit "SecurePass123")).
  - exact testuser_valid.
  - vm_compute. reflexivity.
  - vm_compute. reflexivity.
  - vm_compute. reflexivity.
Defined.

Lemma login_failures_indistinguishable_witness :
  @login basic_latin reference one_user nonexistent
  = error_response (lit "Invalid credentials") 401
  ∧ @login basic_latin reference one_user wrong_password
    = error_response (lit "Invalid credentials") 401.
Proof.
  split.
  - apply (@login_failures_indistinguishable basic_latin reference one_user
             nonexistent (validated "nonexistent" "SecurePass123")
             (lit "nonexistent") (lit "SecurePass123"));
      [vm_compute; reflexivity..|].
    left. vm_compute. reflexivity.
  - apply (@login_failures_indistinguishable basic_latin reference one_user
             wrong_password (validated "testuser" "WrongPassword123")
             (lit "testuser") (lit "WrongPassword123"));
      [vm_compute; reflexivity..|].
    right. eexists. split; vm_compute; reflexivity.
Defined.



Lemma concurrent_registrations_one_success_witness :
  ∃ i winner row,
    (run [0; 1; 0; 1]%nat (init_db, two_tasks)).2 !! i = Some winner
    ∧ succeeded winner = true
    ∧ (∀ j, j ≠ i → (j < length two_tasks)%nat →
         ∃ t, (run [0; 1; 0; 1]%nat (init_db, two_tasks)).2 !! j = Some t
              ∧ failed t = true)
    ∧ named (lit "testuser") (run [0; 1; 0; 1]%nat (init_db, two_tasks)).1 = [row].
Proof.
  apply (concurrent_registrations_one_success (lit "testuser") init_db two_tasks
           [0; 1; 0; 1]%nat).
  - vm_compute. reflexivity.
  - discriminate.
  - repeat constructor; eexists _, _; vm_compute; reflexivity.
  - intros [|[|i]] Hi; [vm_compute; lia..|cbn in Hi; lia].
Defined.

(** * Further properties of the handlers *)

(** ** What passes the generic validation *)

Section validate_input_inversion.
Context `{UnicodeData}.

Lemma check_field_inv (data : json) (field : str) :
  check_field data field = Ok () →
  ∃ m s, data = JObj m ∧ m !! field = Some (JStr s)
    ∧ strip s ≠ [] ∧ (length s ≤ 255)%nat.
Proof.
  unfold check_field.
  destruct data as [|b|z|f|s|l|m]; cbn [contains]; run_binds; try done.
  - destruct (substring_of field s); cbn [getitem]; run_binds; done.
  - destruct (existsb (is_str field) l); cbn [getitem]; run_binds; done.
  - cbn [getitem]. destruct (m !! field) as [v|] eqn:Hv.
    + rewrite bool_decide_eq_true_2 by eauto. run_binds. cbn [negb orb].
      destruct (truthy v); cbn [negb]; [|done].
      destruct v as [|b|z|f|s|l|m']; try done.
      case_bool_decide as Hblank; [done|].
      case_bool_decide as Hlong; [done|]. intros _.
      exists m, s. split_and!; [done..| |lia].
      intros Hs. apply Hblank. by rewrite Hs.
    + rewrite bool_decide_eq_false_2 by (by intros [? ?]). run_binds. done.
Qed.

Lemma validate_input_inv (data : json) (d : gmap str str) :
  validate_input data credentials = Ok d →
  ∃ m u p, data = JObj m
    ∧ m !! lit "username" = Some (JStr u) ∧ m !! lit "password" = Some (JStr p)
    ∧ strip u ≠ [] ∧ strip p ≠ []
    ∧ (length u ≤ 255)%nat ∧ (length p ≤ 255)%nat
    ∧ d = <[lit "password" := strip p]> (<[lit "username" := strip u]> ∅).
Proof.
  intros Hd. pose proof Hd as Hd'. revert Hd'.
  unfold validate_input, credentials.
  destruct (truthy data); cbn [negb]; [|done]. cbn [check_fields].
  destruct (check_field data (lit "username")) as [[]|e] eqn:Hu; run_binds;
    [|done].
  destruct (check_field data (lit "password")) as [[]|e] eqn:Hp; run_binds;
    [|done].
  intros _.
  apply check_field_inv in Hu as (m & u & -> & Hu & Hsu & Hlu).
  apply check_field_inv in Hp as (m' & p & [= <-] & Hp & Hsp & Hlp).
  exists m, u, p. split_and!; try done.
  rewrite (validate_input_ok m u p) in Hd by done. by injection Hd as <-.
Qed.

End validate_input_inversion.

(** X1. [validate_input] accepts a request exactly when it is a JSON object
    whose [username] and [password] are strings that are not blank and have
    at most 255 characters before trimming; what it returns has these two
    keys only, bound to the trimmed strings.  Members beyond the two are
    ignored, and nothing but an object is accepted. *)
Theorem validate_input_accepts `{UnicodeData} (data : json) (d : gmap str str) :
  validate_input data credentials = Ok d
  ↔ ∃ m u p, data = JObj m
      ∧ m !! lit "username" = Some (JStr u) ∧ m !! lit "password" = Some (JStr p)
      ∧ strip u ≠ [] ∧ strip p ≠ []
      ∧ (length u ≤ 255)%nat ∧ (length p ≤ 255)%nat
      ∧ d = {[ lit "username" := strip u; lit "password" := strip p ]}.
Proof.
  assert (Hmap : ∀ u p : str,
    ({[ lit "username" := u; lit "password" := p ]} : gmap str str)
    = <[lit "password" := p]> (<[lit "username" := u]> ∅)).
  { intros u p. rewrite insert_insert_ne by done. by rewrite insert_empty. }
  split.
  - intros Hd. apply validate_input_inv in Hd
      as (m & u & p & -> & Hu & Hp & Hsu & Hsp & Hlu & Hlp & ->).
    exists m, u, p. by rewrite Hmap.
  - intros (m & u & p & -> & Hu & Hp & Hsu & Hsp & Hlu & Hlp & ->).
    rewrite Hmap. by apply validate_input_ok.
Qed.

(** ** The outcomes of a registration *)

Section create_user_outcomes.
Context `{UnicodeData} `{Bcrypt}.

Lemma on_exception_status (db_message : string) (e : exn) :
  status (on_exception db_message e) = 400
  ∨ status (on_exception db_message e) = 500.
Proof. destruct e; cbn; auto. Qed.

(** A registration either adds the row of a valid, new name, or is refused
    with status 400 or 500 and leaves the store alone. *)
Lemma create_user_cases (db : database) (urandom : bytes) (utcnow : str)
    (request_json : json) :
  (∃ u p h, valid_registration request_json u p
     ∧ hash_password urandom p = Ok h ∧ select_by_username db u = None
     ∧ create_user db urandom utcnow request_json
       = (user_created (id (inserted_row db u h utcnow)) u,
          after_insert db u h utcnow))
  ∨ (∃ refusal, create_user db urandom utcnow request_json = (refusal, db)
       ∧ (status refusal = 400 ∨ status refusal = 500)).
Proof.
  destruct (validate_input request_json credentials) as [data|e] eqn:Hdata.
  - destruct (validate_input_inv _ _ Hdata)
      as (m & u & p & -> & Hu & Hp & Hsu & Hsp & Hlu & Hlp & ->).
    destruct (Validator.validate_username (strip u)) as [[] mu] eqn:Hvu.
    + destruct (Validator.validate_password (strip p)) as [[] mp] eqn:Hvp.
      * assert (Hvalid : valid_registration (JObj m) (strip u) (strip p)).
        { eexists. split; [exact Hdata|]. split_and!.
          - rewrite lookup_insert_ne by done. by rewrite lookup_insert_eq.
          - by rewrite lookup_insert_eq.
          - by rewrite Hvu.
          - by rewrite Hvp. }
        destruct (hash_password urandom (strip p)) as [h|e] eqn:Hh.
        -- destruct (select_by_username db (strip u)) as [row|] eqn:Hsel.
           ++ right. exists (error_response (lit "Username already exists") 400).
              split; [|by left].
              by apply (create_user_taken db urandom utcnow (JObj m)
                          (strip u) (strip p) h row).
           ++ left. exists (strip u), (strip p), h. split_and!; try done.
              by apply (create_user_new db urandom utcnow (JObj m)
                          (strip u) (strip p) h).
        -- right. exists (on_exception "User creation failed" e).
           split; [|apply on_exception_status].
           unfold create_user, create_user_try, create_user_prepare.
           rewrite Hdata. run_binds.
           rewrite validated_username, validated_password. run_binds.
           rewrite Hvu, Hvp. cbn [negb]. rewrite Hh. done.
      * right. exists (error_response mp 400). split; [|by left].
        unfold create_user, create_user_try, create_user_prepare.
        rewrite Hdata. run_binds.
        rewrite validated_username, validated_password. run_binds.
        rewrite Hvu, Hvp. done.
    + right. exists (error_response mu 400). split; [|by left].
      unfold create_user, create_user_try, create_user_prepare.
      rewrite Hdata. run_binds.
      rewrite validated_username, validated_password. run_binds.
      rewrite Hvu. done.
  - right. exists (on_exception "User creation failed" e).
    split; [|apply on_exception_status].
    unfold create_user, create_user_try, create_user_prepare.
    rewrite Hdata. done.
Qed.

End create_user_outcomes.

(** X2. [create_user] answers with status 201, 400 or 500.  With 201 the
    store has gained exactly one row, appended after the rows it had, and
    with any other status the store is the one it was given: a refused
    registration writes nothing, and no registration alters or removes a
    stored row. *)
Theorem create_user_outcome `{UnicodeData} `{Bcrypt}
    (db : database) (urandom : bytes) (utcnow : str) (request_json : json) :
  let out := create_user db urandom utcnow request_json in
  (status out.1 = 201 ∧ ∃ row, users out.2 = users db ++ [row])
  ∨ ((status out.1 = 400 ∨ status out.1 = 500) ∧ out.2 = db).
Proof.
  cbn zeta.
  destruct (create_user_cases db urandom utcnow request_json)
    as [(u & p & h & _ & _ & _ & ->)|(refusal & -> & Hstatus)].
  - left. split; [done|]. by eexists.
  - by right.
Qed.

(** ** Invariants of the store *)

Section store_invariants.

Lemma max_id_nonneg (rows : list user_row) : 0 ≤ max_id rows.
Proof.
  induction rows as [|r rows IH]; cbn [max_id foldr]; [done|].
  fold (max_id rows). lia.
Qed.

Lemma after_insert_well_formed (db : database) (name : str) (hash : bytes)
    (created : str) :
  well_formed db → select_by_username db name = None →
  well_formed (after_insert db name hash created).
Proof.
  intros (Hnames & Hids & Hbound) Hfree%select_by_username_None.
  unfold well_formed, after_insert. cbn [users sequence inserted_row id].
  rewrite !fmap_app. cbn [fmap list_fmap username id].
  pose proof (max_id_nonneg (users db)) as Hnonneg.
  split_and!.
  - apply NoDup_app. split_and!; [done| |apply NoDup_singleton].
    intros x Hx ->%list_elem_of_singleton. done.
  - apply NoDup_app. split_and!; [done| |apply NoDup_singleton].
    intros x Hx ->%list_elem_of_singleton.
    apply list_elem_of_fmap in Hx as (r & Hid & Hr%max_id_bound).
    cbn [inserted_row id] in Hid. lia.
  - apply Forall_app. split.
    + eapply Forall_impl; [exact Hbound|]. cbn. intros r Hr. lia.
    + apply Forall_singleton. cbn. lia.
Qed.

Lemma select_after_insert_other (db : database) (name other : str)
    (hash : bytes) (created : str) :
  other ≠ name →
  select_by_username (after_insert db name hash created) other
  = select_by_username db other.
Proof.
  intros Hne. unfold select_by_username, after_insert. cbn [users].
  induction (users db) as [|r rows IH]; cbn [find app].
  - by rewrite bool_decide_eq_false_2.
  - by destruct (bool_decide (username r = other)).
Qed.

End store_invariants.

(** X3. [create_user] keeps the constraints of the schema: on a store with
    unique usernames, unique ids and no id above the recorded sequence, the
    store it leaves has them too, whatever the request. *)
Theorem create_user_well_formed `{UnicodeData} `{Bcrypt}
    (db : database) (urandom : bytes) (utcnow : str) (request_json : json) :
  well_formed db →
  well_formed (create_user db urandom utcnow request_json).2.
Proof.
  intros Hwf.
  destruct (create_user_cases db urandom utcnow request_json)
    as [(u & p & h & _ & _ & Hfree & ->)|(refusal & -> & _)]; [|done].
  by apply after_insert_well_formed.
Qed.

(** X4. Every name [create_user] stores is one [validate_username]
    accepts, the trimmed name of the request: a store whose names are all
    valid stays so. *)
Theorem create_user_usernames_valid `{UnicodeData} `{Bcrypt}
    (db : database) (urandom : bytes) (utcnow : str) (request_json : json) :
  usernames_valid db →
  usernames_valid (create_user db urandom utcnow request_json).2.
Proof.
  intros Hvalid.
  destruct (create_user_cases db urandom utcnow request_json)
    as [(u & p & h & Hreq & _ & _ & ->)|(refusal & -> & _)]; [|done].
  destruct Hreq as (data & _ & _ & _ & Hu & _).
  unfold usernames_valid, after_insert. cbn [snd users].
  apply Forall_app. split; [done|]. by apply Forall_singleton.
Qed.

(** X5. A registration changes what the store answers for a name only when
    it has just created that name: for every other name, and after every
    refused registration, the row found is the row found before. *)
Theorem create_user_select_other `{UnicodeData} `{Bcrypt}
    (db : database) (urandom : bytes) (utcnow : str) (request_json : json)
    (name : str) :
  let out := create_user db urandom utcnow request_json in
  member (body out.1) "username" ≠ Some (JStr name) →
  select_by_username out.2 name = select_by_username db name.
Proof.
  cbn zeta.
  destruct (create_user_cases db urandom utcnow request_json)
    as [(u & p & h & _ & _ & _ & ->)|(refusal & -> & _)]; [|done].
  cbn [fst snd]. intros Hname. apply select_after_insert_other.
  intros ->. by apply Hname.
Qed.

(** X6. A registration changes the answer of a login only for the name it
    has just created: a login under any other name, and any login after a
    refused registration, is answered as before. *)
Theorem login_after_other_registration `{UnicodeData} `{Bcrypt}
    (db : database) (urandom : bytes) (utcnow : str) (registration : json)
    (request_json : json) (data : gmap str str) (u p : str) :
  let out := create_user db urandom utcnow registration in
  validate_input request_json credentials = Ok data →
  data !! lit "username" = Some u → data !! lit "password" = Some p →
  member (body out.1) "username" ≠ Some (JStr u) →
  login out.2 request_json = login db request_json.
Proof.
  cbn zeta. intros Hdata Hu Hp Hname.
  rewrite !(login_validated _ request_json data u p) by done.
  destruct (create_user_cases db urandom utcnow registration)
    as [(u' & p' & h & _ & _ & _ & Hout)|(refusal & Hout & _)];
    rewrite Hout in *; cbn [fst snd] in *; [|done].
  rewrite !fetch_by_username_spec.
  rewrite select_after_insert_other; [done|].
  intros ->. by apply Hname.
Qed.

(** ** Registration followed by login and listing *)

Section after_registration.
Context `{UnicodeData} `{Bcrypt}.

Lemma hash_then_verify `{!BcryptLaws} (urandom : bytes) (password : str)
    (h : bytes) :
  hash_password urandom password = Ok h → verify_password password h = Ok true.
Proof.
  unfold hash_password, verify_password.
  destruct (encode_utf8 password) as [encoded|e]; run_binds; [|done].
  destruct (hashpw encoded (gensalt urandom)) as [h'|] eqn:Hh; [|done].
  cbn [value_or_raise]. intros [= <-].
  by rewrite (checkpw_hashpw _ _ _ Hh).
Qed.

Lemma login_refused_by_validation (db : database) (request_json : json) (e : exn) :
  validate_input request_json credentials = Raise e →
  login db request_json = on_exception "Authentication failed" e.
Proof. intros He. unfold login, login_try. by rewrite He. Qed.

End after_registration.

(** X7. Registration and login round trip: once a valid registration of a
    new name has succeeded, a login with the same request succeeds, and
    names the user by the [user_id] the registration returned. *)
Theorem register_then_login `{UnicodeData} `{BcryptLaws}
    (db : database) (urandom : bytes) (utcnow : str) (request_json : json)
    (u p : str) (h : bytes) :
  valid_registration request_json u p → hash_password urandom p = Ok h →
  select_by_username db u = None →
  let out := create_user db urandom utcnow request_json in
  status (login out.2 request_json) = 200
  ∧ member (body (login out.2 request_json)) "username" = Some (JStr u)
  ∧ member (body (login out.2 request_json)) "user_id"
    = member (body out.1) "user_id".
Proof.
  intros Hvalid Hh Hfree. cbn zeta.
  rewrite (create_user_new db urandom utcnow request_json u p h) by done.
  cbn [fst snd]. destruct Hvalid as (data & Hdata & Hu & Hp & Hvu & _).
  rewrite (login_validated _ request_json data u p) by done.
  rewrite valid_username_binds by done.
  rewrite select_after_insert by done. cbn [inserted_row password_hash].
  rewrite (hash_then_verify urandom p h) by done. done.
Qed.

(** X8. Once a valid registration of a new name has succeeded, the listing
    has one record more than before, and the record of the new user, with
    the id, the name and the creation time of the registration, is in it. *)
Theorem register_then_listed `{UnicodeData} `{Bcrypt}
    (db : database) (urandom : bytes) (utcnow : str) (request_json : json)
    (u p : str) (h : bytes) :
  valid_registration request_json u p → hash_password urandom p = Ok h →
  select_by_username db u = None →
  ∃ (user_id : Z) (records : list json),
    member (body (create_user db urandom utcnow request_json).1) "user_id"
    = Some (JInt user_id)
    ∧ member (body (get_users (create_user db urandom utcnow request_json).2))
        "users" = Some (JArr records)
    ∧ length records = S (length (users db))
    ∧ dict [("id", JInt user_id); ("username", JStr u);
            ("created_at", JStr utcnow)] ∈ records.
Proof.
  intros Hvalid Hh Hfree.
  rewrite (create_user_new db urandom utcnow request_json u p h) by done.
  cbn [fst snd].
  exists (id (inserted_row db u h utcnow)),
    (user_record <$> select_all_newest_first (after_insert db u h utcnow)).
  pose proof (merge_sort_Permutation created_at_desc
                (users (after_insert db u h utcnow))) as Hperm.
  split_and!; [done..| |].
  - rewrite length_fmap. unfold select_all_newest_first.
    rewrite (Permutation_length Hperm). cbn [after_insert users].
    rewrite length_app. cbn [length]. lia.
  - apply (list_elem_of_fmap_2 user_record _ (inserted_row db u h utcnow)).
    unfold select_all_newest_first. rewrite Hperm.
    cbn [after_insert users]. apply elem_of_app. right.
    apply list_elem_of_singleton. done.
Qed.

(** X9. [login] answers with status 200 exactly when the request passes
    the generic validation, the lookup of the trimmed name returns a stored
    user and the trimmed password verifies against that user's hash; and
    whenever these hold, the response is the success response with that
    user's id and name.  No other path leads to a success. *)
Theorem login_success_iff `{UnicodeData} `{Bcrypt}
    (db : database) (request_json : json) :
  (status (login db request_json) = 200
   ↔ ∃ data u p row,
       validate_input request_json credentials = Ok data
       ∧ data !! lit "username" = Some u ∧ data !! lit "password" = Some p
       ∧ fetch_by_username db u = Ok (Some row)
       ∧ verify_password p (password_hash row) = Ok true)
  ∧ ∀ data u p row,
      validate_input request_json credentials = Ok data →
      data !! lit "username" = Some u → data !! lit "password" = Some p →
      fetch_by_username db u = Ok (Some row) →
      verify_password p (password_hash row) = Ok true →
      login db request_json = login_successful row.
Proof.
  assert (Hsuccess : ∀ data u p row,
    validate_input request_json credentials = Ok data →
    data !! lit "username" = Some u → data !! lit "password" = Some p →
    fetch_by_username db u = Ok (Some row) →
    verify_password p (password_hash row) = Ok true →
    login db request_json = login_successful row).
  { intros data u p row Hdata Hu Hp Hrow Hv.
    rewrite (login_validated db request_json data u p) by done.
    by rewrite Hrow, Hv. }
  split; [|exact Hsuccess]. split.
  - destruct (validate_input request_json credentials) as [data|e] eqn:Hdata.
    + destruct (validate_input_inv _ _ Hdata)
        as (m & u & p & -> & Hu & Hp & Hsu & Hsp & Hlu & Hlp & ->).
      pose proof (login_validated db (JObj m) _ (strip u) (strip p) Hdata)
        as Hlogin.
      rewrite lookup_insert_ne, !lookup_insert_eq in Hlogin by done.
      specialize (Hlogin eq_refl eq_refl). rewrite Hlogin.
      destruct (fetch_by_username db (strip u)) as [[row|]|e] eqn:Hsel;
        [|done..].
      destruct (verify_password (strip p) (password_hash row))
        as [[]|e] eqn:Hv; try done.
      intros _. eexists _, (strip u), (strip p), row.
      split_and!; done.
    + rewrite (login_refused_by_validation db request_json e Hdata).
      by destruct e.
  - intros (data & u & p & row & Hdata & Hu & Hp & Hrow & Hv).
    by rewrite (Hsuccess data u p row).
Qed.

(** ** Requests that are refused *)

Section refusals.
Context `{UnicodeData} `{Bcrypt}.

Lemma create_user_refused_by_validation (db : database) (urandom : bytes)
    (utcnow : str) (request_json : json) (e : exn) :
  validate_input request_json credentials = Raise e →
  create_user db urandom utcnow request_json
  = (on_exception "User creation failed" e, db).
Proof.
  intros He. unfold create_user, create_user_try, create_user_prepare.
  by rewrite He.
Qed.

Lemma validate_input_not_object (request_json : json) :
  (∀ m, request_json ≠ JObj m) →
  ∃ e, validate_input request_json credentials = Raise e.
Proof.
  intros Hnot.
  destruct (validate_input request_json credentials) as [d|e] eqn:Hd; [|eauto].
  apply validate_input_inv in Hd as (m & ? & ? & -> & _). by destruct (Hnot m).
Qed.

Lemma hash_password_exceptions (urandom : bytes) (password : str) (e : exn) :
  hash_password urandom password = Raise e →
  e = UnicodeEncodeError ∨ e = ValueError.
Proof.
  unfold hash_password. rewrite encode_utf8_spec.
  destruct (existsb is_surrogate password); run_binds.
  - intros [= <-]. by left.
  - destruct (hashpw _ _); cbn [value_or_raise]; [done|].
    intros [= <-]. by right.
Qed.

End refusals.

(** X10. A request body that is empty or false in Python's sense ([null],
    [false], zero, the empty string, array or object) is refused by both
    [create_user] and [login] with status 400 and the message "No data
    provided", and the store is not touched. *)
Theorem falsy_body_refused `{UnicodeData} `{Bcrypt}
    (db : database) (urandom : bytes) (utcnow : str) (request_json : json) :
  truthy request_json = false →
  create_user db urandom utcnow request_json
  = (error_response (lit "400 Bad Request: No data provided") 400, db)
  ∧ login db request_json
    = error_response (lit "400 Bad Request: No data provided") 400.
Proof.
  intros Hfalsy.
  assert (validate_input request_json credentials
          = Raise (BadRequest (lit "No data provided"))) as He
    by (unfold validate_input; by rewrite Hfalsy).
  rewrite (create_user_refused_by_validation _ _ _ _ _ He).
  by rewrite (login_refused_by_validation _ _ _ He).
Qed.

(** X11. A body that is a number other than zero, or [true], is not
    reported as a bad request: the membership test of [validate_input]
    raises a [TypeError], and both handlers answer with status 500 and
    "Internal server error". *)
Theorem scalar_body_internal_error `{UnicodeData} `{Bcrypt}
    (db : database) (urandom : bytes) (utcnow : str) (request_json : json) :
  scalar request_json = true → truthy request_json = true →
  create_user db urandom utcnow request_json
  = (error_response (lit "Internal server error") 500, db)
  ∧ login db request_json = error_response (lit "Internal server error") 500.
Proof.
  intros Hscalar Htruthy.
  assert (validate_input request_json credentials = Raise TypeError) as He.
  { unfold validate_input. rewrite Htruthy. cbn [negb check_fields credentials].
    unfold check_field. by destruct request_json. }
  rewrite (create_user_refused_by_validation _ _ _ _ _ He).
  by rewrite (login_refused_by_validation _ _ _ He).
Qed.

(** X12. Nothing but a JSON object can register or log in: for a body that
    is an array, a string, a number, a boolean or [null], [create_user]
    answers 400 or 500 and leaves the store alone, and [login] answers 400
    or 500. *)
Theorem non_object_body_refused `{UnicodeData} `{Bcrypt}
    (db : database) (urandom : bytes) (utcnow : str) (request_json : json) :
  (∀ m, request_json ≠ JObj m) →
  let out := create_user db urandom utcnow request_json in
  (status out.1 = 400 ∨ status out.1 = 500) ∧ out.2 = db
  ∧ (status (login db request_json) = 400
     ∨ status (login db request_json) = 500).
Proof.
  intros Hnot. cbn zeta.
  destruct (validate_input_not_object request_json Hnot) as [e He].
  rewrite (create_user_refused_by_validation _ _ _ _ _ He).
  rewrite (login_refused_by_validation _ _ _ He). cbn [fst snd].
  split_and!; [apply on_exception_status|done|apply on_exception_status].
Qed.

(** X13. The limit of 255 characters is applied to a field as sent, before
    trimming: a username of more than 255 characters that is not blank is
    refused by both handlers with status 400 and "Value too long for
    username", however short it is once trimmed. *)
Theorem long_username_refused `{UnicodeData} `{Bcrypt}
    (db : database) (urandom : bytes) (utcnow : str) (m : gmap str json)
    (u : str) :
  m !! lit "username" = Some (JStr u) →
  strip u ≠ [] → (255 < length u)%nat →
  create_user db urandom utcnow (JObj m)
  = (error_response (lit "400 Bad Request: Value too long for username") 400, db)
  ∧ login db (JObj m)
    = error_response (lit "400 Bad Request: Value too long for username") 400.
Proof.
  intros Hu Hsu Hlong.
  assert (validate_input (JObj m) credentials
          = Raise (BadRequest (lit "Value too long for username"))) as He.
  { unfold validate_input, credentials.
    assert (m ≠ ∅) by (intros ->; by rewrite lookup_empty in Hu).
    cbn [truthy]. rewrite bool_decide_eq_false_2 by done.
    cbn [negb check_fields]. unfold check_field, contains, getitem.
    rewrite Hu. run_binds. rewrite bool_decide_eq_true_2 by eauto.
    run_binds. cbn [negb orb truthy].
    assert (u ≠ []) by (intros ->; by apply Hsu).
    rewrite (bool_decide_eq_false_2 (u = [])) by done. cbn [negb].
    rewrite bool_decide_eq_false_2 by (by destruct (strip u)).
    rewrite bool_decide_eq_true_2 by lia. done. }
  rewrite (create_user_refused_by_validation _ _ _ _ _ He).
  by rewrite (login_refused_by_validation _ _ _ He).
Qed.


(** X15. When the hasher fails on a password that both validators accept,
    because the password cannot be encoded or the library refuses it,
    [create_user] answers with status 500 and "Internal server error" and
    stores nothing. *)
Theorem unhashable_password_refused `{UnicodeData} `{Bcrypt}
    (db : database) (urandom : bytes) (utcnow : str) (request_json : json)
    (u p : str) (e : exn) :
  valid_registration request_json u p → hash_password urandom p = Raise e →
  create_user db urandom utcnow request_json
  = (error_response (lit "Internal server error") 500, db).
Proof.
  intros (data & Hdata & Hu & Hp & Hvu & Hvp) Hh.
  unfold create_user, create_user_try, create_user_prepare, lookup_field.
  rewrite Hdata. run_binds. rewrite Hu, Hp. run_binds.
  destruct (Validator.validate_username u) as [? ?]; cbn [fst] in Hvu; subst.
  destruct (Validator.validate_password p) as [? ?]; cbn [fst] in Hvp; subst.
  cbn [negb]. rewrite Hh. run_binds.
  by destruct (hash_password_exceptions _ _ _ Hh) as [-> | ->].
Qed.

(** X16. When the check of the password against the stored hash raises,
    as it does for a stored hash the library cannot parse, [login] answers
    with status 500 and "Internal server error" rather than with the 401 of
    a wrong password. *)
Theorem login_check_raises `{UnicodeData} `{Bcrypt}
    (db : database) (request_json : json) (data : gmap str str) (u p : str)
    (row : user_row) (e : exn) :
  validate_input request_json credentials = Ok data →
  data !! lit "username" = Some u → data !! lit "password" = Some p →
  select_by_username db u = Some row →
  verify_password p (password_hash row) = Raise e →
  login db request_json = error_response (lit "Internal server error") 500.
Proof.
  intros Hdata Hu Hp Hrow Hraise.
  rewrite (login_validated db request_json data u p) by done.
  rewrite fetch_by_username_spec.
  destruct (existsb is_surrogate u); [done|]. by rewrite Hrow, Hraise.
Qed.

(** ** Blanks around the credentials *)

Section trimming.
Context `{UnicodeData}.

Lemma dropwhile_length {A} (p : A → bool) (l : list A) :
  (length (dropwhile p l) ≤ length l)%nat.
Proof.
  induction l as [|x l IH]; cbn [dropwhile length]; [done|].
  destruct (p x); cbn [length]; lia.
Qed.

Lemma dropwhile_idemp {A} (p : A → bool) (l : list A) :
  dropwhile p (dropwhile p l) = dropwhile p l.
Proof.
  induction l as [|x l IH]; cbn [dropwhile]; [done|].
  destruct (p x) eqn:Hx; [done|]. cbn [dropwhile]. by rewrite Hx.
Qed.

Lemma dropwhile_snoc {A} (p : A → bool) (l : list A) (x : A) :
  p x = false → dropwhile p (l ++ [x]) = dropwhile p l ++ [x].
Proof.
  intros Hx. induction l as [|y l IH]; cbn [dropwhile app].
  - by rewrite Hx.
  - by destruct (p y).
Qed.

Lemma rstrip_cons (x : char) (s : str) :
  isspace x = false → rstrip (x :: s) = x :: rstrip s.
Proof.
  intros Hx. unfold rstrip.
  rewrite reverse_cons, dropwhile_snoc by done.
  by rewrite reverse_app, reverse_singleton.
Qed.

Lemma rstrip_idemp (s : str) : rstrip (rstrip s) = rstrip s.
Proof. unfold rstrip. by rewrite reverse_involutive, dropwhile_idemp. Qed.

Lemma lstrip_head (s : str) :
  lstrip s = [] ∨ ∃ x s', lstrip s = x :: s' ∧ isspace x = false.
Proof.
  unfold lstrip. induction s as [|x s IH]; cbn [dropwhile]; [by left|].
  destruct (isspace x) eqn:Hx; [done|]. right. by exists x, s.
Qed.

(** Trimming a trimmed string changes nothing. *)
Lemma strip_idemp (s : str) : strip (strip s) = strip s.
Proof.
  unfold strip. destruct (lstrip_head s) as [->|(x & s' & -> & Hx)]; [done|].
  rewrite rstrip_cons by done. unfold lstrip at 1. cbn [dropwhile].
  rewrite Hx. by rewrite <- rstrip_cons, rstrip_idemp.
Qed.

Lemma strip_length (s : str) : (length (strip s) ≤ length s)%nat.
Proof.
  unfold strip, rstrip, lstrip. rewrite length_reverse.
  etransitivity; [apply dropwhile_length|]. rewrite length_reverse.
  apply dropwhile_length.
Qed.

(** A request and the same request with its two fields trimmed are
    validated to the same credentials. *)
Lemma validate_input_trimmed (m : gmap str json) (u p : str) :
  m !! lit "username" = Some (JStr u) → m !! lit "password" = Some (JStr p) →
  strip u ≠ [] → strip p ≠ [] →
  (length u ≤ 255)%nat → (length p ≤ 255)%nat →
  validate_input (JObj m) credentials
  = validate_input
      (JObj {[ lit "username" := JStr (strip u); lit "password" := JStr (strip p) ]})
      credentials.
Proof.
  intros Hu Hp Hsu Hsp Hlu Hlp.
  rewrite (validate_input_ok m u p) by done.
  rewrite (validate_input_ok _ (strip u) (strip p)).
  - by rewrite !strip_idemp.
  - by rewrite lookup_insert_eq.
  - rewrite lookup_insert_ne by done. by rewrite lookup_singleton_eq.
  - by rewrite strip_idemp.
  - by rewrite strip_idemp.
  - pose proof (strip_length u). lia.
  - pose proof (strip_length p). lia.
Qed.

End trimming.

Section same_validation.
Context `{UnicodeData} `{Bcrypt}.

(** The handlers look at a request through [validate_input] only. *)
Lemma create_user_same_validation (db : database) (urandom : bytes)
    (utcnow : str) (r1 r2 : json) :
  validate_input r1 credentials = validate_input r2 credentials →
  create_user db urandom utcnow r1 = create_user db urandom utcnow r2.
Proof.
  intros Hsame. unfold create_user, create_user_try, create_user_prepare.
  rewrite Hsame. reflexivity.
Qed.

Lemma login_same_validation (db : database) (r1 r2 : json) :
  validate_input r1 credentials = validate_input r2 credentials →
  login db r1 = login db r2.
Proof.
  intros Hsame. unfold login, login_try. rewrite Hsame. reflexivity.
Qed.

End same_validation.

(** X17. Blanks around the username and around the password do not count:
    a request whose two fields pass the generic validation is answered by
    [create_user] and by [login] exactly as the request with both fields
    trimmed, so the password that is hashed and checked is the trimmed
    one. *)
Theorem surrounding_blanks_ignored `{UnicodeData} `{Bcrypt}
    (db : database) (urandom : bytes) (utcnow : str) (m : gmap str json)
    (u p : str) :
  m !! lit "username" = Some (JStr u) → m !! lit "password" = Some (JStr p) →
  strip u ≠ [] → strip p ≠ [] →
  (length u ≤ 255)%nat → (length p ≤ 255)%nat →
  let trimmed :=
    JObj {[ lit "username" := JStr (strip u); lit "password" := JStr (strip p) ]} in
  create_user db urandom utcnow (JObj m) = create_user db urandom utcnow trimmed
  ∧ login db (JObj m) = login db trimmed.
Proof.
  intros Hu Hp Hsu Hsp Hlu Hlp. cbn zeta.
  pose proof (validate_input_trimmed m u p Hu Hp Hsu Hsp Hlu Hlp) as Hsame.
  split.
  - exact (create_user_same_validation db urandom utcnow _ _ Hsame).
  - exact (login_same_validation db _ _ Hsame).
Qed.

(** ** The store under concurrent registrations *)

Section concurrent_invariants.

Lemma step_well_formed (db : database) (t : task) :
  well_formed db → well_formed (step db t).2.
Proof.
  intros Hwf. destruct t as [u h now|u h now|r]; cbn [step]; [| |done].
  - by destruct (create_user_check db u).
  - unfold create_user_insert, insert_user. case_bool_decide as Htaken; [done|].
    run_binds. cbn [get_db_connection snd].
    apply after_insert_well_formed; [done|].
    by apply select_by_username_None.
Qed.

Lemma step_at_well_formed (i : nat) (st : database * list task) :
  well_formed st.1 → well_formed (step_at i st).1.
Proof.
  intros Hwf. unfold step_at. destruct (st.2 !! i) as [t|]; [|done].
  pose proof (step_well_formed st.1 t Hwf) as Hstep.
  by destruct (step st.1 t).
Qed.

End concurrent_invariants.

(** X18. Registrations served at the same time keep the constraints of the
    schema: whatever requests are in progress, for whatever names, and
    however their database steps are interleaved, a store with unique
    usernames and ids never comes to hold two rows with one username or
    one id. *)
Theorem concurrent_registrations_well_formed (db : database)
    (tasks : list task) (schedule : list nat) :
  well_formed db → well_formed (run schedule (db, tasks)).1.
Proof.
  intros Hwf. unfold run.
  change db with (db, tasks).1 in Hwf. revert Hwf.
  generalize (db, tasks). induction schedule as [|i schedule IH]; [done|].
  intros st Hwf. cbn [foldl]. by apply IH, step_at_well_formed.
Qed.

(** ** The further properties at the sample inputs *)

Lemma init_db_well_formed : well_formed init_db.
Proof. repeat split; constructor. Defined.

Lemma create_user_well_formed_witness :
  well_formed (@create_user basic_latin reference init_db urandom1 utcnow1 testuser).2.
Proof.
  apply (@create_user_well_formed basic_latin reference init_db urandom1 utcnow1
           testuser).
  exact init_db_well_formed.
Defined.

Lemma create_user_usernames_valid_witness :
  usernames_valid
    (@create_user basic_latin reference init_db urandom1 utcnow1 testuser).2.
Proof.
  apply (@create_user_usernames_valid basic_latin reference init_db urandom1
           utcnow1 testuser).
  constructor.
Defined.

Lemma create_user_select_other_witness :
  select_by_username
    (@create_user basic_latin reference one_user urandom2 utcnow2 gooduser).2
    (lit "testuser")
  = select_by_username one_user (lit "testuser").
Proof.
  apply (@create_user_select_other basic_latin reference one_user urandom2
           utcnow2 gooduser (lit "testuser")).
  vm_compute. discriminate.
Defined.

Lemma login_after_other_registration_witness :
  @login basic_latin reference
    (@create_user basic_latin reference one_user urandom2 utcnow2 gooduser).2
    testuser
  = @login basic_latin reference one_user testuser.
Proof.
  apply (@login_after_other_registration basic_latin reference one_user urandom2
           utcnow2 gooduser testuser (validated "testuser" "SecurePass123")
           (lit "testuser") (lit "SecurePass123"));
    [vm_compute; reflexivity..|].
  vm_compute. discriminate.
Defined.

Lemma register_then_login_witness :
  let out := @create_user basic_latin reference init_db urandom1 utcnow1 testuser in
  status (@login basic_latin reference out.2 testuser) = 200
  ∧ member (body (@login basic_latin reference out.2 testuser)) "username"
    = Some (JStr (lit "testuser"))
  ∧ member (body (@login basic_latin reference out.2 testuser)) "user_id"
    = member (body out.1) "user_id".
Proof.
  eapply (@register_then_login basic_latin reference reference_laws init_db
            urandom1 utcnow1 testuser (lit "testuser") (lit "SecurePass123")).
  - exact testuser_valid.
  - vm_compute. reflexivity.
  - vm_compute. reflexivity.
Defined.

Lemma register_then_listed_witness :
  ∃ (user_id : Z) (records : list json),
    member (body (@create_user basic_latin reference init_db urandom1 utcnow1
                    testuser).1) "user_id" = Some (JInt user_id)
    ∧ member (body (get_users (@create_user basic_latin reference init_db urandom1
                                 utcnow1 testuser).2)) "users"
      = Some (JArr records)
    ∧ length records = S (length (users init_db))
    ∧ dict [("id", JInt user_id); ("username", JStr (lit "testuser"));
            ("created_at", JStr utcnow1)] ∈ records.
Proof.
  eapply (@register_then_listed basic_latin reference init_db urandom1 utcnow1
            testuser (lit "testuser") (lit "SecurePass123")).
  - exact testuser_valid.
  - vm_compute. reflexivity.
  - vm_compute. reflexivity.
Defined.

Lemma falsy_body_refused_witness :
  @create_user basic_latin reference one_user urandom1 utcnow1 (JObj ∅)
  = (error_response (lit "400 Bad Request: No data provided") 400, one_user)
  ∧ @login basic_latin reference one_user (JObj ∅)
    = error_response (lit "400 Bad Request: No data provided") 400.
Proof.
  apply (@falsy_body_refused basic_latin reference one_user urandom1 utcnow1
           (JObj ∅)).
  vm_compute. reflexivity.
Defined.

Lemma scalar_body_internal_error_witness :
  @create_user basic_latin reference one_user urandom1 utcnow1 (JInt 7)
  = (error_response (lit "Internal server error") 500, one_user)
  ∧ @login basic_latin reference one_user (JInt 7)
    = error_response (lit "Internal server error") 500.
Proof.
  apply (@scalar_body_internal_error basic_latin reference one_user urandom1
           utcnow1 (JInt 7)); reflexivity.
Defined.

Lemma non_object_body_refused_witness :
  let body := JArr [JStr (lit "username"); JStr (lit "password")] in
  let out := @create_user basic_latin reference one_user urandom1 utcnow1 body in
  (status out.1 = 400 ∨ status out.1 = 500) ∧ out.2 = one_user
  ∧ (status (@login basic_latin reference one_user body) = 400
     ∨ status (@login basic_latin reference one_user body) = 500).
Proof.
  apply (@non_object_body_refused basic_latin reference one_user urandom1 utcnow1
           (JArr [JStr (lit "username"); JStr (lit "password")])).
  intros m. discriminate.
Defined.

Lemma long_username_refused_witness :
  (length (@strip basic_latin long_padded_name) = 1)%nat
  ∧ @create_user basic_latin reference init_db urandom1 utcnow1 long_padded
    = (error_response (lit "400 Bad Request: Value too long for username") 400,
       init_db)
  ∧ @login basic_latin reference init_db long_padded
    = error_response (lit "400 Bad Request: Value too long for username") 400.
Proof.
  split; [vm_compute; reflexivity|].
  eapply (@long_username_refused basic_latin reference init_db urandom1 utcnow1
            _ long_padded_name).
  - vm_compute. reflexivity.
  - vm_compute. discriminate.
  - vm_compute. lia.
Defined.


Lemma unhashable_password_refused_witness :
  @create_user basic_latin reference init_db urandom1 utcnow1 surrogate_password
  = (error_response (lit "Internal server error") 500, init_db).
Proof.
  eapply (@unhashable_password_refused basic_latin reference init_db urandom1
            utcnow1 surrogate_password (lit "testuser")
            (lit "Abcdefg1" ++ [55296%N]) UnicodeEncodeError).
  - exists {[ lit "username" := lit "testuser";
              lit "password" := lit "Abcdefg1" ++ [55296%N] ]}.
    repeat split; vm_compute; reflexivity.
  - vm_compute. reflexivity.
Defined.

Lemma login_check_raises_witness :
  @login basic_latin reference broken_store testuser
  = error_response (lit "Internal server error") 500.
Proof.
  apply (@login_check_raises basic_latin reference broken_store testuser
           (validated "testuser" "SecurePass123") (lit "testuser")
           (lit "SecurePass123") broken_user ValueError);
    vm_compute; reflexivity.
Defined.

Lemma surrounding_blanks_ignored_witness :
  @create_user basic_latin reference init_db urandom1 utcnow1 padded
  = @create_user basic_latin reference init_db urandom1 utcnow1 testuser
  ∧ @login basic_latin reference one_user padded
    = @login basic_latin reference one_user testuser.
Proof.
  split.
  - apply (@surrounding_blanks_ignored basic_latin reference init_db urandom1
             utcnow1 (credentials_of "  testuser " " SecurePass123  ")
             (lit "  testuser ") (lit " SecurePass123  "));
      vm_compute; first [reflexivity | discriminate | lia].
  - apply (@surrounding_blanks_ignored basic_latin reference one_user urandom1
             utcnow1 (credentials_of "  testuser " " SecurePass123  ")
             (lit "  testuser ") (lit " SecurePass123  "));
      vm_compute; first [reflexivity | discriminate | lia].
Defined.

Lemma concurrent_registrations_well_formed_witness :
  well_formed (run [0; 1; 2; 2; 1; 0]%nat (init_db, three_tasks)).1.
Proof.
  apply (concurrent_registrations_well_formed init_db three_tasks
           [0; 1; 2; 2; 1; 0]%nat).
  exact init_db_well_formed.
Defined.
